(** * picseed: seed-derived image placeholders

    A shallow embedding of [src/utils.ts] (the hash and the colour mapper) and
    of [src/index.ts] (the SVG renderer, the canvas renderer and the
    dispatcher), followed by the properties of the specification that were
    checked against it.

    Conventions of the embedding:
    - a JavaScript string is the list of its UTF-16 code units;
    - the integers of [hashString] are [Z] with the 32-bit wrap-around of
      [<<] and [|] written out (they stay below [2^53], where the double
      arithmetic of the source is exact);
    - [width], [height] and the font size are IEEE-754 doubles (primitive
      floats), printed by [Number_toString] as template literals do;
    - the renderers run in a small state-and-exception monad over the
      module-level variables [NodeCanvas]/[NodeImage] and a log of the calls
      made to the host (module loader, DOM, canvas); a call runs to its end
      before the next one starts, overlapping calls are not modelled. *)

From Stdlib Require Import ZArith NArith List Lia Bool String Ascii.
From Stdlib Require Import PrimFloat FloatOps SpecFloat Uint63.
Import ListNotations.

Local Open Scope Z_scope.

(* ================================================================== *)
(** * Part I: definitions                                              *)
(* ================================================================== *)

(** ** JavaScript strings *)

(** A UTF-16 code unit; a well-formed one is below [2^16]. *)
Definition code_unit := N.
Definition jsstring := list code_unit.

(** A literal of the source, written as a Rocq string. *)
Definition lit (s : string) : jsstring :=
  map N_of_ascii (list_ascii_of_string s).
Arguments lit s%_string.

(** A literal of the source that contains double quotes: every apostrophe of
    the argument stands for a double quote (U+0022).  Only used for literals
    that hold no apostrophe of their own. *)
Definition litq (s : string) : jsstring :=
  map (fun c => if N.eqb c 39 then 34%N else c) (lit s).
Arguments litq s%_string.

(** The line feed that ends each line of the template literal. *)
Definition nl : jsstring := [10%N].

Definition jsstring_eq_dec : forall a b : jsstring, {a = b} + {a <> b} :=
  list_eq_dec N.eq_dec.

(** [a === b] on strings. *)
Definition str_eqb (a b : jsstring) : bool :=
  if jsstring_eq_dec a b then true else false.

(** [hay.includes(needle)] *)
Fixpoint starts_with (needle hay : jsstring) : bool :=
  match needle, hay with
  | [], _ => true
  | _ :: _, [] => false
  | a :: n', b :: h' => N.eqb a b && starts_with n' h'
  end.

Fixpoint includes (needle hay : jsstring) : bool :=
  starts_with needle hay ||
  match hay with
  | [] => false
  | _ :: h' => includes needle h'
  end.

(** WhiteSpace and LineTerminator code units, the ones [String.prototype.trim]
    strips. *)
Definition is_js_whitespace (c : code_unit) : bool :=
  existsb (N.eqb c)
    [0x9; 0xA; 0xB; 0xC; 0xD; 0x20; 0xA0; 0x1680; 0x2028; 0x2029; 0x202F;
     0x205F; 0x3000; 0xFEFF]%N
  || (N.leb 0x2000 c && N.leb c 0x200A).

Fixpoint trimStart (s : jsstring) : jsstring :=
  match s with
  | c :: s' => if is_js_whitespace c then trimStart s' else s
  | [] => []
  end.

Definition trimEnd (s : jsstring) : jsstring := rev (trimStart (rev s)).

Definition trim (s : jsstring) : jsstring := trimEnd (trimStart s).

(** ** Numbers *)

(** [ToString] applied to a Number (ECMA-262, Number::toString, radix 10).
    A finite non-zero double is [m * 2^e]; its text is built from the
    shortest decimal [s * 10^(n-k)] ([k] digits) that rounds back to it,
    the closest one when several of that length do. *)

Definition digit_unit (d : Z) : code_unit := Z.to_N (48 + d).

Fixpoint decimal_digits_aux (fuel : nat) (n : Z) (acc : jsstring) : jsstring :=
  match fuel with
  | O => acc
  | S fuel' =>
      let acc' := digit_unit (n mod 10) :: acc in
      if n <? 10 then acc' else decimal_digits_aux fuel' (n / 10) acc'
  end.

(** The decimal digits of a non-negative integer, without leading zeros. *)
Definition decimal_digits (n : Z) : jsstring :=
  decimal_digits_aux (S (Z.to_nat (Z.log2 n))) n [].

(** [2^e / 10^p] as the fraction [scale_num e p / scale_den e p]. *)
Definition scale_num (e p : Z) : Z := 2 ^ Z.max e 0 * 10 ^ Z.max (- p) 0.
Definition scale_den (e p : Z) : Z := 2 ^ Z.max (- e) 0 * 10 ^ Z.max p 0.

(** Does the decimal [t * 10^p] round (to nearest, ties to even) to the
    double [m * 2^e]?  In units of [2^(e-2)] the double is [4m], the
    midpoint to its successor [4m + 2] and the midpoint to its predecessor
    [4m - 2], or [4m - 1] just above a power of two. *)
Definition rounds_to (m e t p : Z) : bool :=
  let lo := 4 * m - (if (m =? 2 ^ 52) && (-1074 <? e) then 1 else 2) in
  let hi := 4 * m + 2 in
  let x := t * scale_den (e - 2) p in
  let l := lo * scale_num (e - 2) p in
  let h := hi * scale_num (e - 2) p in
  if Z.even m then (l <=? x) && (x <=? h) else (l <? x) && (x <? h).

(** The integer [t] closest to [m * 2^e / 10^p] among those for which
    [t * 10^p] rounds to the double, if there is one. *)
Definition nearest_decimal (m e p : Z) : option Z :=
  let num := m * scale_num e p in
  let den := scale_den e p in
  let tf := num / den in
  let r := num mod den in
  let okf := rounds_to m e tf p in
  let okc := rounds_to m e (tf + 1) p in
  let prefer_floor := (2 * r <? den) || ((2 * r =? den) && Z.even tf) in
  if okf && okc then Some (if prefer_floor then tf else tf + 1)
  else if okf then Some tf
  else if okc then Some (tf + 1)
  else None.

Fixpoint magnitude_aux (fuel : nat) (m e n : Z) : Z :=
  match fuel with
  | O => n
  | S fuel' =>
      if m * scale_num e n <? scale_den e n then n
      else magnitude_aux fuel' m e (n + 1)
  end.

(** The [n] with [10^(n-1) <= m * 2^e < 10^n], searched upwards from a lower
    estimate of the decimal logarithm. *)
Definition magnitude (m e : Z) : Z :=
  magnitude_aux 8 m e ((Z.log2 m + e) * 30102 / 100000 - 1).

Fixpoint shortest_aux (fuel : nat) (m e n0 k : Z) : Z * Z :=
  match fuel with
  | O => (0, 0)
  | S fuel' =>
      match nearest_decimal m e (n0 - k) with
      | Some t => if t =? 10 ^ k then (10 ^ (k - 1), n0 + 1) else (t, n0)
      | None => shortest_aux fuel' m e n0 (k + 1)
      end
  end.

(** The pair [(s, n)] of Number::toString; 17 digits always suffice. *)
Definition shortest (m e : Z) : Z * Z :=
  shortest_aux 17 m e (magnitude m e) 1.

Definition zeros (n : Z) : jsstring := repeat 48%N (Z.to_nat n).

(** The layout of Number::toString for digits [s] and decimal exponent [n]:
    plain integer, digits with a point, [0.000ddd], or exponent notation. *)
Definition format_decimal (s n : Z) : jsstring :=
  let ds := decimal_digits s in
  let k := Z.of_nat (List.length ds) in
  if (k <=? n) && (n <=? 21) then ds ++ zeros (n - k)
  else if (0 <? n) && (n <=? 21) then
    firstn (Z.to_nat n) ds ++ lit "." ++ skipn (Z.to_nat n) ds
  else if (-6 <? n) && (n <=? 0) then lit "0." ++ zeros (- n) ++ ds
  else
    let e := n - 1 in
    let exponent :=
      lit "e" ++ (if e <? 0 then lit "-" else lit "+")
              ++ decimal_digits (Z.abs e) in
    match ds with
    | [] => []
    | [d] => d :: exponent
    | d :: rest => d :: lit "." ++ rest ++ exponent
    end.

Definition Number_toString (x : float) : jsstring :=
  match Prim2SF x with
  | S754_nan => lit "NaN"
  | S754_zero _ => lit "0"
  | S754_infinity sgn => (if sgn then lit "-" else []) ++ lit "Infinity"
  | S754_finite sgn m e =>
      let '(s, n) := shortest (Z.pos m) e in
      (if sgn then lit "-" else []) ++ format_decimal s n
  end.

(** The Number with an integer value; exact below [2^53]. *)
Definition float_of_Z (z : Z) : float :=
  if z <? 0 then PrimFloat.opp (of_uint63 (Uint63.of_Z (- z)))
  else of_uint63 (Uint63.of_Z z).

(** The literal [0.3] of the source: the double nearest to three tenths. *)
Definition js_0_3 : float := 0x1.3333333333333p-2%float.

(** [Math.min(a, b)]: NaN if either is NaN, and [-0] below [+0]. *)
Definition Math_min (a b : float) : float :=
  if PrimFloat.is_nan a || PrimFloat.is_nan b then PrimFloat.nan
  else if PrimFloat.ltb a b then a
  else if PrimFloat.ltb b a then b
  else if PrimFloat.get_sign a then a else b.

(** ** 32-bit integer operators *)

(** ToInt32: reduce modulo [2^32] into [-2^31, 2^31). *)
Definition ToInt32 (x : Z) : Z :=
  let m := x mod 2 ^ 32 in
  if m >=? 2 ^ 31 then m - 2 ^ 32 else m.

(** [a << n]: the left operand as an int32, the count modulo 32, the result
    again an int32. *)
Definition js_shl (a n : Z) : Z :=
  ToInt32 (Z.shiftl (ToInt32 a) (n mod 32)).

(** [a | b]: both operands as int32, bitwise or in two's complement. *)
Definition js_or (a b : Z) : Z :=
  Z.lor (ToInt32 a) (ToInt32 b).

(** [a % b] on integer-valued numbers: the remainder takes the sign of the
    dividend. *)
Definition js_rem (a b : Z) : Z := Z.rem a b.

(** ** src/utils.ts *)

(** One turn of the loop of [hashString]:
    [hash = (hash << 5) - hash + char; hash |= 0]. *)
Definition hash_step (hash : Z) (char : code_unit) : Z :=
  let hash := js_shl hash 5 - hash + Z.of_N char in
  js_or hash 0.

(** [hashString(str)]: the loop runs over the code units in order, from
    [hash = 0]; [Math.abs] is exact on numbers. *)
Definition hashString (str : jsstring) : Z :=
  let hash := fold_left hash_step str 0 in
  Z.abs hash.

(** The hash as the specification words it: a signed 32-bit accumulator from
    0, [accumulator * 31 + c] wrapped to 32 bits, the absolute value at the
    end. *)
Definition wrap_signed32 (x : Z) : Z :=
  (x + 2 ^ 31) mod 2 ^ 32 - 2 ^ 31.

Fixpoint accumulate31 (acc : Z) (s : jsstring) : Z :=
  match s with
  | [] => acc
  | c :: s' => accumulate31 (wrap_signed32 (acc * 31 + Z.of_N c)) s'
  end.

Definition hash_spec (seed : jsstring) : Z := Z.abs (accumulate31 0 seed).

(** [deterministicColor(seed)] *)
Definition deterministicColor (seed : jsstring) : jsstring :=
  let hash := hashString seed in
  let hue := js_rem hash 360 in
  let saturation := 70 in
  let lightness := 50 in
  lit "hsl(" ++ Number_toString (float_of_Z hue) ++ lit ", "
    ++ Number_toString (float_of_Z saturation) ++ lit "%, "
    ++ Number_toString (float_of_Z lightness) ++ lit "%)".

(** ** src/types.ts *)

(** An optional field is [None] when the property is missing. *)
Record PlaceholderOptions := {
  width : float;
  height : float;
  seed : jsstring;
  format : option jsstring;
  text : option jsstring;
  textColor : option jsstring;
  backgroundColor : option jsstring
}.

(** [field || fallback] on an optional string: [undefined] and the empty
    string are the falsy values. *)
Definition or_else (field : option jsstring) (fallback : jsstring) : jsstring :=
  match field with
  | Some (c :: rest) => c :: rest
  | Some [] => fallback
  | None => fallback
  end.

(** ** src/index.ts: the SVG renderer *)

Definition renderSvg (options : PlaceholderOptions) : jsstring :=
  let width := width options in
  let height := height options in
  let bgColor :=
    or_else (backgroundColor options) (deterministicColor (seed options)) in
  let displayText :=
    or_else (text options)
            (Number_toString width ++ lit "x" ++ Number_toString height) in
  let fgColor := or_else (textColor options) (lit "#ffffff") in
  let fontSize := PrimFloat.mul (Math_min width height) js_0_3 in
  let svgContent :=
    litq "<?xml version='1.0' encoding='UTF-8'?>" ++ nl ++
    litq "    <svg width='" ++ Number_toString width
      ++ litq "' height='" ++ Number_toString height
      ++ litq "' viewBox='0 0 " ++ Number_toString width
      ++ lit " " ++ Number_toString height
      ++ litq "' xmlns='http://www.w3.org/2000/svg'>" ++ nl ++
    litq "      <rect width='100%' height='100%' fill='" ++ bgColor
      ++ litq "'/>" ++ nl ++
    lit "      <text" ++ nl ++
    litq "        x='50%'" ++ nl ++
    litq "        y='50%'" ++ nl ++
    litq "        font-family='sans-serif'" ++ nl ++
    litq "        font-size='" ++ Number_toString fontSize ++ litq "'" ++ nl ++
    litq "        fill='" ++ fgColor ++ litq "'" ++ nl ++
    litq "        text-anchor='middle'" ++ nl ++
    litq "        dominant-baseline='middle'" ++ nl ++
    lit "      >" ++ displayText ++ lit "</text>" ++ nl ++
    lit "    </svg>" ++ nl ++
    lit "  " in
  trim svgContent.

(** ** Exceptions and completions *)

Inductive error_class :=
| JsError
| JsTypeError
| JsURIError
| JsOtherError (name : jsstring).

(** A thrown error object: its constructor, its [message] and its [code]
    property when it has one. *)
Record js_exception := {
  exn_class : error_class;
  exn_message : jsstring;
  exn_code : option jsstring
}.

(** [new Error(message)] *)
Definition new_Error (message : jsstring) : js_exception :=
  {| exn_class := JsError; exn_message := message; exn_code := None |}.

(** The URIError of the URI functions (the message is the engine's). *)
Definition URIError_malformed : js_exception :=
  {| exn_class := JsURIError; exn_message := lit "URI malformed";
     exn_code := None |}.

(** Reading a property of [undefined]. *)
Definition TypeError_undefined (property : jsstring) : js_exception :=
  {| exn_class := JsTypeError;
     exn_message :=
       lit "Cannot read properties of undefined (reading '"
         ++ property ++ lit "')";
     exn_code := None |}.

(** [e.code === code] *)
Definition code_is (e : js_exception) (code : jsstring) : bool :=
  match exn_code e with
  | Some c => str_eqb c code
  | None => false
  end.

Inductive completion (A : Type) : Type :=
| Normal (value : A)
| Throw (e : js_exception).
Arguments Normal {A} value.
Arguments Throw {A} e.

Definition map_completion {A B} (f : A -> B) (c : completion A)
  : completion B :=
  match c with
  | Normal a => Normal (f a)
  | Throw e => Throw e
  end.

(** ** encodeURIComponent and String.prototype.replace *)

Definition in_range (lo hi c : N) : bool := N.leb lo c && N.leb c hi.

Definition is_lead_surrogate (c : code_unit) : bool := in_range 0xD800 0xDBFF c.
Definition is_trail_surrogate (c : code_unit) : bool := in_range 0xDC00 0xDFFF c.

(** The characters [encodeURIComponent] leaves alone: letters, digits and
    the marks [- _ . ! ~ * ' ( )]. *)
Definition uri_unescaped (c : code_unit) : bool :=
  in_range 65 90 c || in_range 97 122 c || in_range 48 57 c
  || existsb (N.eqb c) (lit "-_.!~*'()").

Definition hex_digit (d : N) : code_unit :=
  if N.ltb d 10 then (48 + d)%N else (55 + d)%N.

(** ["%XX"] for one octet, in upper-case hexadecimal. *)
Definition percent_octet (b : N) : jsstring :=
  [37%N; hex_digit (b / 16); hex_digit (b mod 16)].

Definition utf8_octets (cp : N) : list N :=
  (if cp <? 0x80 then [cp]
   else if cp <? 0x800 then [0xC0 + cp / 64; 0x80 + cp mod 64]
   else if cp <? 0x10000 then
     [0xE0 + cp / 4096; 0x80 + (cp / 64) mod 64; 0x80 + cp mod 64]
   else
     [0xF0 + cp / 262144; 0x80 + (cp / 4096) mod 64;
      0x80 + (cp / 64) mod 64; 0x80 + cp mod 64])%N.

Definition percent_escape (cp : N) : jsstring :=
  flat_map percent_octet (utf8_octets cp).

Definition surrogate_pair (lead trail : code_unit) : N :=
  ((lead - 0xD800) * 0x400 + (trail - 0xDC00) + 0x10000)%N.

(** The abstract operation Encode of ECMA-262: unescaped code units are
    copied, every other code point is written as the percent-escapes of its
    UTF-8 octets, and an unpaired surrogate throws a URIError. *)
Fixpoint Encode (unescaped : code_unit -> bool) (s : jsstring)
  : completion jsstring :=
  match s with
  | [] => Normal []
  | c :: rest =>
      if unescaped c then
        map_completion (cons c) (Encode unescaped rest)
      else if is_trail_surrogate c then Throw URIError_malformed
      else if is_lead_surrogate c then
        match rest with
        | d :: rest' =>
            if is_trail_surrogate d then
              map_completion (app (percent_escape (surrogate_pair c d)))
                             (Encode unescaped rest')
            else Throw URIError_malformed
        | [] => Throw URIError_malformed
        end
      else
        map_completion (app (percent_escape c)) (Encode unescaped rest)
  end.

Definition encodeURIComponent (s : jsstring) : completion jsstring :=
  Encode uri_unescaped s.

(** [s.replace(/c/g, replacement)] for a one-character pattern and a
    replacement without [$]. *)
Definition replace_all (c : code_unit) (replacement s : jsstring) : jsstring :=
  flat_map (fun u => if N.eqb u c then replacement else [u]) s.

(** ** The host and the module state *)

(** What the code does to a canvas and to its 2D context, in order. *)
Inductive canvas_op :=
| SetWidth (w : float)
| SetHeight (h : float)
| SetFillStyle (style : jsstring)
| FillRect (x y w h : float)
| SetFont (font : jsstring)
| SetTextAlign (align : jsstring)
| SetTextBaseline (baseline : jsstring)
| FillText (text : jsstring) (x y : float).

(** A canvas as the host provides it: whether [getContext('2d')] yields a
    context, and the data URL that [toDataURL] returns after a sequence of
    operations. *)
Record Surface := {
  surface_has_context : bool;
  surface_data_url : list canvas_op -> jsstring
}.

(** The [Canvas] export of the optional module. *)
Record CanvasNamespace := {
  createCanvas : float -> float -> completion Surface
}.

Inductive ImageExport := NodeImageClass.

(** The namespace object of [import('canvas')]; an export is [None] when it
    is missing. *)
Record CanvasModule := {
  module_Canvas : option CanvasNamespace;
  module_Image : option ImageExport
}.

(** The environment of a process: whether [window] is defined, what the
    n-th attempt (from 0) to load the optional module yields, and the
    element [document.createElement('canvas')] returns. *)
Record Host := {
  window_defined : bool;
  import_canvas : nat -> completion CanvasModule;
  document_canvas : Surface
}.

Inductive renderer := RenderSvg | RenderPng.

(** The calls made to the host, and (as ghost entries) the renderers the
    dispatcher entered. *)
Inductive host_call :=
| ImportModule (specifier : jsstring)
| CreateCanvas (w h : float)
| CreateElement (tag : jsstring)
| GetContext (kind : jsstring)
| SurfaceOp (op : canvas_op)
| ToDataURL (mime : jsstring)
| Enter (r : renderer).

(** The module-level variables of [index.ts] and the log of calls, oldest
    first. *)
Record State := {
  NodeCanvas : option CanvasNamespace;
  NodeImage : option ImageExport;
  calls : list host_call
}.

Definition initial_state : State :=
  {| NodeCanvas := None; NodeImage := None; calls := [] |}.

Definition is_import (c : host_call) : bool :=
  match c with ImportModule _ => true | _ => false end.

(** How many times the module load was attempted. *)
Definition load_attempts (log : list host_call) : nat :=
  List.length (filter is_import log).

(** The operations applied to the canvas in use: those logged since the
    last canvas was obtained. *)
Definition surface_ops (log : list host_call) : list canvas_op :=
  fold_left
    (fun ops c =>
       match c with
       | CreateCanvas _ _ | CreateElement _ => []
       | SurfaceOp op => ops ++ [op]
       | _ => ops
       end)
    log [].

(** ** The monad of the asynchronous functions

    A computation reads the host, threads the state and ends normally or by
    throwing; a rejected promise is a [Throw]. *)

Definition M (A : Type) : Type := Host -> State -> completion A * State.

Definition ret {A} (a : A) : M A := fun _ st => (Normal a, st).

Definition throw {A} (e : js_exception) : M A := fun _ st => (Throw e, st).

Definition bind {A B} (m : M A) (k : A -> M B) : M B :=
  fun host st =>
    match m host st with
    | (Normal a, st') => k a host st'
    | (Throw e, st') => (Throw e, st')
    end.

Notation "x <- m ;; k" := (bind m (fun x => k))
  (at level 61, m at next level, right associativity).
Notation "m ;;; k" := (bind m (fun _ => k))
  (at level 61, right associativity).

(** [try { body } catch (e) { handler e }] *)
Definition try_catch {A} (body : M A) (handler : js_exception -> M A) : M A :=
  fun host st =>
    match body host st with
    | (Normal a, st') => (Normal a, st')
    | (Throw e, st') => handler e host st'
    end.

Definition of_completion {A} (c : completion A) : M A := fun _ st => (c, st).

Definition record (c : host_call) : M unit :=
  fun _ st =>
    (Normal tt,
     {| NodeCanvas := NodeCanvas st; NodeImage := NodeImage st;
        calls := calls st ++ [c] |}).

Definition read_NodeCanvas : M (option CanvasNamespace) :=
  fun _ st => (Normal (NodeCanvas st), st).

Definition write_NodeCanvas (v : option CanvasNamespace) : M unit :=
  fun _ st =>
    (Normal tt,
     {| NodeCanvas := v; NodeImage := NodeImage st; calls := calls st |}).

Definition write_NodeImage (v : option ImageExport) : M unit :=
  fun _ st =>
    (Normal tt,
     {| NodeCanvas := NodeCanvas st; NodeImage := v; calls := calls st |}).

(** [typeof window === 'undefined'] *)
Definition window_is_undefined : M bool :=
  fun host st => (Normal (negb (window_defined host)), st).

(** [await import(specifier)] *)
Definition import_module (specifier : jsstring) : M CanvasModule :=
  fun host st =>
    let attempt := load_attempts (calls st) in
    (record (ImportModule specifier) ;;;
     of_completion (import_canvas host attempt)) host st.

(** [NodeCanvas.createCanvas(width, height)] *)
Definition NodeCanvas_createCanvas (w h : float) : M Surface :=
  cached <- read_NodeCanvas ;;
  match cached with
  | None => throw (TypeError_undefined (lit "createCanvas"))
  | Some ns => record (CreateCanvas w h) ;;; of_completion (createCanvas ns w h)
  end.

(** [document.createElement(tag)] *)
Definition document_createElement (tag : jsstring) : M Surface :=
  fun host st => (record (CreateElement tag) ;;; ret (document_canvas host)) host st.

(** [canvasElement.getContext(kind)]: is the context non-null? *)
Definition getContext (canvasElement : Surface) (kind : jsstring) : M bool :=
  record (GetContext kind) ;;; ret (surface_has_context canvasElement).

Definition surface_do (op : canvas_op) : M unit := record (SurfaceOp op).

(** [canvasElement.toDataURL(mime)] *)
Definition toDataURL (canvasElement : Surface) (mime : jsstring) : M jsstring :=
  fun host st =>
    (record (ToDataURL mime) ;;;
     ret (surface_data_url canvasElement (surface_ops (calls st)))) host st.

(** ** src/index.ts: the canvas renderer *)

Definition canvas_missing_message : jsstring :=
  litq "Canvas API not available for PNG generation in Node.js. Please install 'canvas' or '@napi-rs/canvas' as a peer dependency (e.g., `npm install canvas`), or use `format: 'svg'`.".

Definition renderPng (options : PlaceholderOptions) : M jsstring :=
  let width := width options in
  let height := height options in
  canvasElement <-
    (headless <- window_is_undefined ;;
     if headless then
       cached <- read_NodeCanvas ;;
       match cached with
       | None =>
           try_catch
             (nodeCanvasModule <- import_module (lit "canvas") ;;
              write_NodeCanvas (module_Canvas nodeCanvasModule) ;;;
              write_NodeImage (module_Image nodeCanvasModule))
             (fun e =>
                if code_is e (lit "MODULE_NOT_FOUND")
                then throw (new_Error canvas_missing_message)
                else throw e)
       | Some _ => ret tt
       end ;;;
       NodeCanvas_createCanvas width height
     else
       canvasElement <- document_createElement (lit "canvas") ;;
       surface_do (SetWidth width) ;;;
       surface_do (SetHeight height) ;;;
       ret canvasElement) ;;
  ctx <- getContext canvasElement (lit "2d") ;;
  if negb ctx then
    throw (new_Error (lit "Could not get 2D rendering context from canvas."))
  else
    let bgColor :=
      or_else (backgroundColor options) (deterministicColor (seed options)) in
    let displayText :=
      or_else (text options)
              (Number_toString width ++ lit "x" ++ Number_toString height) in
    let fgColor := or_else (textColor options) (lit "#ffffff") in
    surface_do (SetFillStyle bgColor) ;;;
    surface_do (FillRect 0 0 width height) ;;;
    let fontSize := PrimFloat.mul (Math_min width height) js_0_3 in
    surface_do (SetFont (Number_toString fontSize ++ lit "px sans-serif")) ;;;
    surface_do (SetFillStyle fgColor) ;;;
    surface_do (SetTextAlign (lit "center")) ;;;
    surface_do (SetTextBaseline (lit "middle")) ;;;
    surface_do (FillText displayText (PrimFloat.div width 2)
                         (PrimFloat.div height 2)) ;;;
    toDataURL canvasElement (lit "image/png").

(** ** src/index.ts: the dispatcher *)

Definition unsupported_format_message (format : jsstring) : jsstring :=
  lit "Unsupported format: " ++ format
    ++ lit ". Only 'png' and 'svg' are supported.".

Definition generatePlaceholder (options : PlaceholderOptions) : M jsstring :=
  let format := or_else (format options) (lit "png") in
  if str_eqb format (lit "svg") then
    record (Enter RenderSvg) ;;;
    let svgString := renderSvg options in
    encodedSvg <- of_completion (encodeURIComponent svgString) ;;
    let encodedSvg :=
      replace_all 34%N (lit "%22") (replace_all 39%N (lit "%27") encodedSvg) in
    ret (lit "data:image/svg+xml;charset=utf-8," ++ encodedSvg)
  else if str_eqb format (lit "png") then
    record (Enter RenderPng) ;;;
    renderPng options
  else
    throw (new_Error (unsupported_format_message format)).

(** A process that makes the given [renderPng] calls one after the other,
    each settled before the next starts. *)
Fixpoint run_renderPng (host : Host) (requests : list PlaceholderOptions)
    (st : State) : State :=
  match requests with
  | [] => st
  | options :: rest => run_renderPng host rest (snd (renderPng options host st))
  end.

(** ** Notions used in the statements

    Predicates on strings, and the resolution of overrides and the document
    of the vector renderer as the specification words them, to be compared
    with the functions above. *)

(** Strings of code units below 256, as the literals of the source are. *)
Definition latin1_only (s : jsstring) : Prop := Forall (fun c => (c < 256)%N) s.

(** A string without unpaired surrogates. *)
Fixpoint utf16_well_formed (s : jsstring) : bool :=
  match s with
  | [] => true
  | c :: rest =>
      if is_trail_surrogate c then false
      else if is_lead_surrogate c then
        match rest with
        | d :: rest' => is_trail_surrogate d && utf16_well_formed rest'
        | [] => false
        end
      else utf16_well_formed rest
  end.

Definition field_well_formed (field : option jsstring) : Prop :=
  match field with
  | Some s => utf16_well_formed s = true
  | None => True
  end.

(** Percent-encoding that also escapes the apostrophe: the unescaped set of
    [encodeURIComponent] without U+0027. *)
Definition uri_unescaped_no_quote (c : code_unit) : bool :=
  uri_unescaped c && negb (N.eqb c 39).

(** "The override when given, else the default", read literally. *)
Definition override_or (field : option jsstring) (default : jsstring)
  : jsstring :=
  match field with
  | Some s => s
  | None => default
  end.

(** "The override when given and not empty, else the default". *)
Definition nonempty_override_or (field : option jsstring) (default : jsstring)
  : jsstring :=
  match field with
  | Some s => if str_eqb s [] then default else s
  | None => default
  end.

(** The default label, ["{width}x{height}"]. *)
Definition dimensions_label (w h : float) : jsstring :=
  Number_toString w ++ lit "x" ++ Number_toString h.

Definition indent (n : nat) : jsstring := repeat 32%N n.

(** The root element, sized [w] by [h]. *)
Definition svg_root_open (w h : jsstring) : jsstring :=
  litq "<svg width='" ++ w ++ litq "' height='" ++ h
    ++ litq "' viewBox='0 0 " ++ w ++ lit " " ++ h
    ++ litq "' xmlns='http://www.w3.org/2000/svg'>".

(** The rectangle that covers the whole root, filled with [fill]. *)
Definition svg_full_rect (fill : jsstring) : jsstring :=
  litq "<rect width='100%' height='100%' fill='" ++ fill ++ litq "'/>".

(** The text node anchored at the centre in both directions. *)
Definition svg_centered_text (font_size fill label : jsstring) : jsstring :=
  lit "<text" ++ nl ++
  indent 8 ++ litq "x='50%'" ++ nl ++
  indent 8 ++ litq "y='50%'" ++ nl ++
  indent 8 ++ litq "font-family='sans-serif'" ++ nl ++
  indent 8 ++ litq "font-size='" ++ font_size ++ litq "'" ++ nl ++
  indent 8 ++ litq "fill='" ++ fill ++ litq "'" ++ nl ++
  indent 8 ++ litq "text-anchor='middle'" ++ nl ++
  indent 8 ++ litq "dominant-baseline='middle'" ++ nl ++
  indent 6 ++ lit ">" ++ label ++ lit "</text>".

(** The document of the vector renderer. *)
Definition svg_document (w h : float) (background label text_fill : jsstring)
    (font_size : float) : jsstring :=
  litq "<?xml version='1.0' encoding='UTF-8'?>" ++ nl ++
  indent 4 ++ svg_root_open (Number_toString w) (Number_toString h) ++ nl ++
  indent 6 ++ svg_full_rect background ++ nl ++
  indent 6
    ++ svg_centered_text (Number_toString font_size) text_fill label ++ nl ++
  indent 4 ++ lit "</svg>".

(** The escaping of the dispatcher: every apostrophe replaced by [%27], and
    then every double quote by [%22]. *)
Definition requote (s : jsstring) : jsstring :=
  replace_all 34%N (lit "%22") (replace_all 39%N (lit "%27") s).

Definition is_quote (c : code_unit) : bool := N.eqb c 34 || N.eqb c 39.

(** Strings that hold neither an apostrophe nor a double quote. *)
Definition quote_free (s : jsstring) : Prop :=
  Forall (fun c => is_quote c = false) s.

(** The state once the dispatcher has entered a renderer. *)
Definition entered (r : renderer) (st : State) : State :=
  {| NodeCanvas := NodeCanvas st; NodeImage := NodeImage st;
     calls := calls st ++ [Enter r] |}.

Definition svg_data_url_prefix : jsstring :=
  lit "data:image/svg+xml;charset=utf-8,".

(** A computation that, started with the module [ns] cached, ends with it
    still cached and without a new attempt to load it. *)
Definition keeps_cache {A} (ns : CanvasNamespace) (m : M A) : Prop :=
  forall host st,
    NodeCanvas st = Some ns ->
    NodeCanvas (snd (m host st)) = Some ns /\
    load_attempts (calls (snd (m host st))) = load_attempts (calls st).

(** ** Sample hosts and requests *)

Definition request (w h : float) (seed : string) : PlaceholderOptions :=
  {| width := w; height := h; seed := lit seed; format := None;
     text := None; textColor := None; backgroundColor := None |}.

Definition with_format (f : option jsstring) (o : PlaceholderOptions) :=
  {| width := width o; height := height o; seed := seed o; format := f;
     text := text o; textColor := textColor o;
     backgroundColor := backgroundColor o |}.

Definition with_text (t : option jsstring) (o : PlaceholderOptions) :=
  {| width := width o; height := height o; seed := seed o;
     format := format o; text := t; textColor := textColor o;
     backgroundColor := backgroundColor o |}.

Definition with_textColor (c : option jsstring) (o : PlaceholderOptions) :=
  {| width := width o; height := height o; seed := seed o;
     format := format o; text := text o; textColor := c;
     backgroundColor := backgroundColor o |}.

Definition with_backgroundColor (c : option jsstring)
    (o : PlaceholderOptions) :=
  {| width := width o; height := height o; seed := seed o;
     format := format o; text := text o; textColor := textColor o;
     backgroundColor := c |}.

(** A canvas that yields a context and a fixed data URL. *)
Definition sample_surface : Surface :=
  {| surface_has_context := true;
     surface_data_url := fun _ => lit "data:image/png;base64,mocked-png-data" |}.

Definition sample_canvas_module : CanvasModule :=
  {| module_Canvas :=
       Some {| createCanvas := fun _ _ => Normal sample_surface |};
     module_Image := Some NodeImageClass |}.

(** The error of a [require] that finds no module. *)
Definition module_not_found : js_exception :=
  {| exn_class := JsError;
     exn_message := lit "Cannot find module 'canvas'";
     exn_code := Some (lit "MODULE_NOT_FOUND") |}.

(** The error of a native add-on that fails to load. *)
Definition dlopen_failed : js_exception :=
  {| exn_class := JsError;
     exn_message := lit "The specified module could not be found.";
     exn_code := Some (lit "ERR_DLOPEN_FAILED") |}.

Definition browser_host : Host :=
  {| window_defined := true;
     import_canvas := fun _ => Throw module_not_found;
     document_canvas := sample_surface |}.

Definition node_host_with_canvas : Host :=
  {| window_defined := false;
     import_canvas := fun _ => Normal sample_canvas_module;
     document_canvas := sample_surface |}.

Definition node_host_without_canvas : Host :=
  {| window_defined := false;
     import_canvas := fun _ => Throw module_not_found;
     document_canvas := sample_surface |}.

Definition node_host_broken_canvas : Host :=
  {| window_defined := false;
     import_canvas := fun _ => Throw dlopen_failed;
     document_canvas := sample_surface |}.

Definition svg_request : PlaceholderOptions :=
  with_format (Some (lit "svg")) (request 100 100 "test-svg").

Definition png_request : PlaceholderOptions :=
  request 100 100 "pngtest-default".

Definition jpeg_request : PlaceholderOptions :=
  with_format (Some (lit "jpeg")) (request 100 100 "invalid").

(** [format: ''] *)
Definition empty_format_request : PlaceholderOptions :=
  with_format (Some []) (request 100 100 "invalid").

(** [text: ''] *)
Definition empty_text_request : PlaceholderOptions :=
  with_text (Some []) svg_request.

(** [text: '\uD83D'], the first half of an emoji, as [name[0]] yields. *)
Definition half_emoji_request : PlaceholderOptions :=
  with_text (Some [0xD83D%N]) svg_request.

(** [backgroundColor: '\uDC00'], a trailing surrogate on its own. *)
Definition stray_surrogate_request : PlaceholderOptions :=
  with_backgroundColor (Some [0xDC00%N]) svg_request.

(** ** Further notions: the hash as a polynomial, the pattern of a colour *)

(** The value [c0 * 31^(n-1) + c1 * 31^(n-2) + ... + c(n-1)] of a string of
    [n] code units, without any wrap-around. *)
Fixpoint poly31 (s : jsstring) : Z :=
  match s with
  | [] => 0
  | c :: s' => Z.of_N c * 31 ^ Z.of_nat (List.length s') + poly31 s'
  end.

Definition is_digit (c : code_unit) : bool := in_range 48 57 c.

(** [s] without the literal [p] in front, if it starts with it. *)
Fixpoint strip_prefix (p s : jsstring) : option jsstring :=
  match p, s with
  | [], _ => Some s
  | _ :: _, [] => None
  | a :: p', b :: s' => if N.eqb a b then strip_prefix p' s' else None
  end.

(** [\d{1,3}] at the head of [s], greedy: what follows up to three digits,
    at least one. *)
Definition strip_digits_1_3 (s : jsstring) : option jsstring :=
  match s with
  | d1 :: s1 =>
      if is_digit d1 then
        match s1 with
        | d2 :: s2 =>
            if is_digit d2 then
              match s2 with
              | d3 :: s3 => if is_digit d3 then Some s3 else Some s2
              | [] => Some s2
              end
            else Some s1
        | [] => Some s1
        end
      else None
  | [] => None
  end.

Definition and_then {A B} (o : option A) (f : A -> option B) : option B :=
  match o with
  | Some a => f a
  | None => None
  end.

(** The pattern the tests hold a colour to:
    [/^hsl\(\d{1,3}, \d{1,3}%, \d{1,3}%\)$/].  After each run of digits the
    pattern wants a character that is no digit, so the greedy reading is
    the only one. *)
Definition matches_hsl_pattern (s : jsstring) : bool :=
  match
    and_then (strip_prefix (lit "hsl(") s) (fun s =>
    and_then (strip_digits_1_3 s) (fun s =>
    and_then (strip_prefix (lit ", ") s) (fun s =>
    and_then (strip_digits_1_3 s) (fun s =>
    and_then (strip_prefix (lit "%, ") s) (fun s =>
    and_then (strip_digits_1_3 s) (fun s =>
    strip_prefix (lit "%)") s))))))
  with
  | Some [] => true
  | _ => false
  end.

(** Code units of a JavaScript string. *)
Definition valid_units (s : jsstring) : Prop :=
  Forall (fun c => (c < 65536)%N) s.

(** ** Further notions: the markup around the label, data URL characters *)

(** The markup of the vector renderer in front of the label, down to the
    [>] that closes the start tag of the text node. *)
Definition svg_before_label (w h : float) (background text_fill : jsstring)
    (font_size : float) : jsstring :=
  litq "<?xml version='1.0' encoding='UTF-8'?>" ++ nl ++
  indent 4 ++ svg_root_open (Number_toString w) (Number_toString h) ++ nl ++
  indent 6 ++ svg_full_rect background ++ nl ++
  indent 6 ++ lit "<text" ++ nl ++
  indent 8 ++ litq "x='50%'" ++ nl ++
  indent 8 ++ litq "y='50%'" ++ nl ++
  indent 8 ++ litq "font-family='sans-serif'" ++ nl ++
  indent 8 ++ litq "font-size='" ++ Number_toString font_size ++ litq "'" ++ nl ++
  indent 8 ++ litq "fill='" ++ text_fill ++ litq "'" ++ nl ++
  indent 8 ++ litq "text-anchor='middle'" ++ nl ++
  indent 8 ++ litq "dominant-baseline='middle'" ++ nl ++
  indent 6 ++ lit ">".

(** The markup behind the label. *)
Definition svg_after_label : jsstring :=
  lit "</text>" ++ nl ++ lit "    </svg>".

Definition field_valid (field : option jsstring) : Prop :=
  match field with
  | Some s => valid_units s
  | None => True
  end.

(** The characters a data URL body is made of: letters, digits, the marks
    [- _ . ! ~ * ( )] and the percent sign. *)
Definition data_url_char (c : code_unit) : bool :=
  in_range 65 90 c || in_range 97 122 c || in_range 48 57 c
  || existsb (N.eqb c) (lit "-_.!~*()%").

(** ** Further notions: decodeURIComponent

    What the tests (and a browser that shows the image) apply to the body of
    the data URL: the abstract operation Decode of ECMA-262 with nothing
    preserved. *)

Definition hex_value (c : code_unit) : option N :=
  if is_digit c then Some (c - 48)%N
  else if in_range 65 70 c then Some (c - 55)%N
  else if in_range 97 102 c then Some (c - 87)%N
  else None.

(** A [%XX] at the head of [s]: its octet and what follows it. *)
Definition take_escape (s : jsstring) : option (N * jsstring) :=
  match s with
  | c :: h1 :: h2 :: rest =>
      if N.eqb c 37 then
        match hex_value h1, hex_value h2 with
        | Some a, Some b => Some (16 * a + b, rest)%N
        | _, _ => None
        end
      else None
  | _ => None
  end.

(** The [n] escapes that must follow the first octet of a longer
    sequence. *)
Fixpoint take_escapes (n : nat) (s : jsstring) : option (list N * jsstring) :=
  match n with
  | O => Some ([], s)
  | S n' =>
      match take_escape s with
      | Some (b, rest) =>
          match take_escapes n' rest with
          | Some (bs, rest') => Some (b :: bs, rest')
          | None => None
          end
      | None => None
      end
  end.

Definition is_continuation (b : N) : bool := in_range 0x80 0xBF b.

(** The code point of a well-formed UTF-8 sequence of two to four octets:
    continuation octets in place, no overlong form, no surrogate, nothing
    above U+10FFFF. *)
Definition utf8_code_point (lead : N) (rest : list N) : option N :=
  match rest with
  | [b1] =>
      let cp := ((lead - 0xC0) * 64 + (b1 - 0x80))%N in
      if is_continuation b1 && N.leb 0x80 cp then Some cp else None
  | [b1; b2] =>
      let cp := ((lead - 0xE0) * 4096 + (b1 - 0x80) * 64 + (b2 - 0x80))%N in
      if is_continuation b1 && is_continuation b2 && N.leb 0x800 cp
         && negb (in_range 0xD800 0xDFFF cp)
      then Some cp else None
  | [b1; b2; b3] =>
      let cp := ((lead - 0xF0) * 262144 + (b1 - 0x80) * 4096
                 + (b2 - 0x80) * 64 + (b3 - 0x80))%N in
      if is_continuation b1 && is_continuation b2 && is_continuation b3
         && in_range 0x10000 0x10FFFF cp
      then Some cp else None
  | _ => None
  end.

(** UTF16EncodeCodePoint *)
Definition utf16_units (cp : N) : jsstring :=
  if (cp <? 0x10000)%N then [cp]
  else [((cp - 0x10000) / 0x400 + 0xD800)%N;
        ((cp - 0x10000) mod 0x400 + 0xDC00)%N].

(** The number of octets the first octet announces (the count of its
    leading one bits), when it is 2, 3 or 4. *)
Definition sequence_length (lead : N) : option nat :=
  if (lead <? 0xC0)%N then None
  else if (lead <? 0xE0)%N then Some 2%nat
  else if (lead <? 0xF0)%N then Some 3%nat
  else if (lead <? 0xF8)%N then Some 4%nat
  else None.

(** Decode; each turn consumes at least one code unit, so the length of the
    string is fuel enough. *)
Fixpoint Decode (fuel : nat) (s : jsstring) : completion jsstring :=
  match s with
  | [] => Normal []
  | c :: rest =>
      match fuel with
      | O => Throw URIError_malformed
      | S fuel' =>
          if N.eqb c 37 then
            match take_escape s with
            | None => Throw URIError_malformed
            | Some (B, rest1) =>
                if (B <? 0x80)%N then
                  map_completion (cons B) (Decode fuel' rest1)
                else
                  match sequence_length B with
                  | None => Throw URIError_malformed
                  | Some n =>
                      match take_escapes (Nat.pred n) rest1 with
                      | None => Throw URIError_malformed
                      | Some (octets, rest2) =>
                          match utf8_code_point B octets with
                          | None => Throw URIError_malformed
                          | Some V =>
                              map_completion (app (utf16_units V))
                                             (Decode fuel' rest2)
                          end
                      end
                  end
            end
          else map_completion (cons c) (Decode fuel' rest)
      end
  end.

Definition decodeURIComponent (s : jsstring) : completion jsstring :=
  Decode (List.length s) s.

(** The data URL of [svg_request]. *)
Definition sample_svg_url : jsstring :=
  match fst (generatePlaceholder svg_request node_host_without_canvas
                                 initial_state) with
  | Normal url => url
  | Throw _ => []
  end.

(** ** Further notions: what the canvas renderer draws *)

(** The operations on the 2D context, in the order of the source: the
    background first, the label over it. *)
Definition drawing_ops (o : PlaceholderOptions) : list canvas_op :=
  [SetFillStyle
     (or_else (backgroundColor o) (deterministicColor (seed o)));
   FillRect 0 0 (width o) (height o);
   SetFont
     (Number_toString (PrimFloat.mul (Math_min (width o) (height o)) js_0_3)
        ++ lit "px sans-serif");
   SetFillStyle (or_else (textColor o) (lit "#ffffff"));
   SetTextAlign (lit "center");
   SetTextBaseline (lit "middle");
   FillText
     (or_else (text o)
              (Number_toString (width o) ++ lit "x"
                 ++ Number_toString (height o)))
     (PrimFloat.div (width o) 2) (PrimFloat.div (height o) 2)].

(** The state after more calls were logged. *)
Definition logged (more : list host_call) (st : State) : State :=
  {| NodeCanvas := NodeCanvas st; NodeImage := NodeImage st;
     calls := calls st ++ more |}.

Definition is_creation (c : host_call) : bool :=
  match c with
  | CreateCanvas _ _ | CreateElement _ => true
  | _ => false
  end.

(** A host on which every attempt to load the optional module fails. *)
Definition never_loads (host : Host) : Prop :=
  forall n, exists e, import_canvas host n = Throw e.

(** Further sample hosts and states. *)
Definition sample_namespace : CanvasNamespace :=
  {| createCanvas := fun _ _ => Normal sample_surface |}.

Definition cached_state : State :=
  {| NodeCanvas := Some sample_namespace; NodeImage := Some NodeImageClass;
     calls := [] |}.

(** A canvas that yields no 2D context. *)
Definition blind_surface : Surface :=
  {| surface_has_context := false; surface_data_url := fun _ => [] |}.

Definition blind_browser_host : Host :=
  {| window_defined := true;
     import_canvas := fun _ => Throw module_not_found;
     document_canvas := blind_surface |}.

Definition blind_namespace : CanvasNamespace :=
  {| createCanvas := fun _ _ => Normal blind_surface |}.

Definition blind_cached_state : State :=
  {| NodeCanvas := Some blind_namespace; NodeImage := None; calls := [] |}.

(** A module without exports. *)
Definition empty_module : CanvasModule :=
  {| module_Canvas := None; module_Image := None |}.

Definition node_host_with_empty_module : Host :=
  {| window_defined := false;
     import_canvas := fun _ => Normal empty_module;
     document_canvas := sample_surface |}.

(** A [createCanvas] that is called and throws, as for a size the native
    library cannot allocate. *)
Definition allocation_failed : js_exception :=
  {| exn_class := JsError;
     exn_message := lit "out of memory";
     exn_code := None |}.

Definition throwing_namespace : CanvasNamespace :=
  {| createCanvas := fun _ _ => Throw allocation_failed |}.

Definition throwing_cached_state : State :=
  {| NodeCanvas := Some throwing_namespace; NodeImage := None; calls := [] |}.

(* ================================================================== *)
(** * Part II: properties                                              *)
(* ================================================================== *)

(** ** The hash *)

Lemma two32_pos : 0 < 2 ^ 32.
Proof. reflexivity. Qed.

Lemma mod32_bound (x : Z) : 0 <= x mod 2 ^ 32 < 2 ^ 32.
Proof. apply Z.mod_pos_bound, two32_pos. Qed.

Lemma div_mod32 (x : Z) : x = 2 ^ 32 * (x / 2 ^ 32) + x mod 2 ^ 32.
Proof. apply Z.div_mod. discriminate. Qed.

Lemma ToInt32_range (x : Z) : - 2 ^ 31 <= ToInt32 x < 2 ^ 31.
Proof.
  unfold ToInt32.
  pose proof (mod32_bound x) as Hm.
  destruct (x mod 2 ^ 32 >=? 2 ^ 31) eqn:E; lia.
Qed.

Lemma ToInt32_wrap (x : Z) : ToInt32 x = wrap_signed32 x.
Proof.
  unfold ToInt32, wrap_signed32.
  pose proof (mod32_bound x) as Hm.
  pose proof (div_mod32 x) as Hd.
  destruct (x mod 2 ^ 32 >=? 2 ^ 31) eqn:E.
  - replace (x + 2 ^ 31)
      with (x mod 2 ^ 32 - 2 ^ 31 + (x / 2 ^ 32 + 1) * 2 ^ 32) by lia.
    rewrite Z_mod_plus_full, (Z.mod_small (x mod 2 ^ 32 - 2 ^ 31)); lia.
  - replace (x + 2 ^ 31)
      with (x mod 2 ^ 32 + 2 ^ 31 + (x / 2 ^ 32) * 2 ^ 32) by lia.
    rewrite Z_mod_plus_full, (Z.mod_small (x mod 2 ^ 32 + 2 ^ 31)); lia.
Qed.

Lemma wrap_signed32_congr (x y : Z) :
  x mod 2 ^ 32 = y mod 2 ^ 32 -> wrap_signed32 x = wrap_signed32 y.
Proof.
  intros H. unfold wrap_signed32.
  rewrite (Z.add_mod x), (Z.add_mod y), H by lia. reflexivity.
Qed.

Lemma wrap_signed32_mod (x : Z) : wrap_signed32 x mod 2 ^ 32 = x mod 2 ^ 32.
Proof.
  unfold wrap_signed32.
  rewrite Zminus_mod_idemp_l.
  f_equal. lia.
Qed.

(** One turn of the source's loop is the specification's update. *)
Lemma hash_step_wrap (h : Z) (c : code_unit) :
  hash_step h c = wrap_signed32 (h * 31 + Z.of_N c).
Proof.
  unfold hash_step, js_or, js_shl.
  change (ToInt32 0) with 0. rewrite Z.lor_0_r.
  change (5 mod 32) with 5. rewrite Z.shiftl_mul_pow2 by lia.
  rewrite !ToInt32_wrap.
  apply wrap_signed32_congr.
  set (a := wrap_signed32 (wrap_signed32 h * 2 ^ 5)).
  assert (Ha : a mod 2 ^ 32 = (h * 32) mod 2 ^ 32).
  { unfold a. rewrite wrap_signed32_mod.
    rewrite <- Zmult_mod_idemp_l, wrap_signed32_mod, Zmult_mod_idemp_l.
    reflexivity. }
  rewrite <- Zplus_mod_idemp_l, <- Zminus_mod_idemp_l, Ha.
  rewrite Zminus_mod_idemp_l, Zplus_mod_idemp_l.
  f_equal. lia.
Qed.

Lemma fold_hash_step (s : jsstring) (h : Z) :
  fold_left hash_step s h = accumulate31 h s.
Proof.
  revert h. induction s as [|c s IH]; intros h; simpl.
  - reflexivity.
  - rewrite IH, hash_step_wrap. reflexivity.
Qed.

Lemma accumulate31_range (s : jsstring) (h : Z) :
  - 2 ^ 31 <= h < 2 ^ 31 -> - 2 ^ 31 <= accumulate31 h s < 2 ^ 31.
Proof.
  revert h. induction s as [|c s IH]; intros h Hh; simpl.
  - exact Hh.
  - apply IH. rewrite <- ToInt32_wrap. apply ToInt32_range.
Qed.

(** C1: for every string, [hashString] is the 31-multiplier accumulation of
    the code units in order, from 0, wrapped to signed 32 bits at each step,
    followed by the absolute value; the empty string hashes to 0. *)
Theorem hashString_refines_spec :
  (forall seed : jsstring, hashString seed = hash_spec seed) /\
  hashString [] = 0.
Proof.
  split.
  - intros seed. unfold hashString, hash_spec.
    rewrite fold_hash_step. reflexivity.
  - reflexivity.
Qed.

(** C6: the hash is a function of its argument alone, it is never negative,
    and it fits in 32 bits. *)
Theorem hashString_nonneg_32bit :
  forall s1 s2 : jsstring,
    s1 = s2 ->
    hashString s1 = hashString s2 /\
    0 <= hashString s1 /\ hashString s1 < 2 ^ 32.
Proof.
  intros s1 s2 ->. split; [reflexivity|].
  unfold hashString. rewrite fold_hash_step.
  pose proof (accumulate31_range s2 0 ltac:(lia)). lia.
Qed.



(** ** Strings *)

Lemma str_eqb_eq (a b : jsstring) : str_eqb a b = true <-> a = b.
Proof.
  unfold str_eqb. destruct (jsstring_eq_dec a b); split; congruence.
Qed.

Lemma str_eqb_neq (a b : jsstring) : str_eqb a b = false <-> a <> b.
Proof.
  unfold str_eqb. destruct (jsstring_eq_dec a b); split; congruence.
Qed.

Lemma str_eqb_refl (a : jsstring) : str_eqb a a = true.
Proof. apply str_eqb_eq. reflexivity. Qed.

Lemma latin1_only_app (a b : jsstring) :
  latin1_only a -> latin1_only b -> latin1_only (a ++ b).
Proof. intros Ha Hb. apply Forall_app. split; assumption. Qed.

Lemma latin1_only_lit (s : string) : latin1_only (lit s).
Proof.
  unfold lit. induction s as [|a s IH]; simpl; constructor.
  - apply N_ascii_bounded.
  - exact IH.
Qed.

Create HintDb latin1.
#[local] Hint Resolve latin1_only_app latin1_only_lit : latin1.

(** ** Number::toString yields digits and punctuation *)

Lemma digit_unit_latin1 (n : Z) : (digit_unit (n mod 10) < 256)%N.
Proof.
  unfold digit_unit.
  pose proof (Z.mod_pos_bound n 10 eq_refl). lia.
Qed.

Lemma decimal_digits_aux_latin1 (fuel : nat) :
  forall n acc, latin1_only acc -> latin1_only (decimal_digits_aux fuel n acc).
Proof.
  induction fuel as [|fuel IH]; intros n acc Hacc; simpl.
  - exact Hacc.
  - assert (Hc : latin1_only (digit_unit (n mod 10) :: acc)).
    { constructor; [apply digit_unit_latin1 | exact Hacc]. }
    destruct (n <? 10); [exact Hc | apply IH, Hc].
Qed.

Lemma decimal_digits_latin1 (n : Z) : latin1_only (decimal_digits n).
Proof. apply decimal_digits_aux_latin1. constructor. Qed.

Lemma zeros_latin1 (n : Z) : latin1_only (zeros n).
Proof.
  unfold zeros. induction (Z.to_nat n); simpl; constructor.
  - reflexivity.
  - assumption.
Qed.

Lemma latin1_only_firstn (n : nat) (s : jsstring) :
  latin1_only s -> latin1_only (firstn n s).
Proof.
  intros H. revert n. induction H as [|c s Hc Hs IH]; intros [|n]; simpl.
  - constructor.
  - constructor.
  - constructor.
  - constructor; [exact Hc | apply IH].
Qed.

Lemma latin1_only_skipn (n : nat) (s : jsstring) :
  latin1_only s -> latin1_only (skipn n s).
Proof.
  intros H. revert n. induction H as [|c s Hc Hs IH]; intros [|n]; simpl.
  - constructor.
  - constructor.
  - constructor; assumption.
  - apply IH.
Qed.

#[local] Hint Resolve decimal_digits_latin1 zeros_latin1 latin1_only_firstn
  latin1_only_skipn : latin1.

Lemma format_decimal_latin1 (s n : Z) : latin1_only (format_decimal s n).
Proof.
  unfold format_decimal.
  pose proof (decimal_digits_latin1 s) as Hds.
  set (ds := decimal_digits s) in *.
  cbv zeta.
  destruct ((Z.of_nat (List.length ds) <=? n) && (n <=? 21)).
  { auto with latin1. }
  destruct ((0 <? n) && (n <=? 21)).
  { auto 6 with latin1. }
  destruct ((-6 <? n) && (n <=? 0)).
  { auto 6 with latin1. }
  assert (He : latin1_only
                 (lit "e" ++ (if n - 1 <? 0 then lit "-" else lit "+")
                          ++ decimal_digits (Z.abs (n - 1)))).
  { destruct (n - 1 <? 0); auto 6 with latin1. }
  destruct ds as [|d [|d' rest]].
  - constructor.
  - inversion Hds; subst. constructor; assumption.
  - inversion Hds as [|? ? Hd Hrest]; subst. constructor; [assumption|].
    apply latin1_only_app; [apply latin1_only_lit|].
    apply latin1_only_app; [exact Hrest | exact He].
Qed.

Lemma sign_prefix_latin1 (sgn : bool) (body : jsstring) :
  latin1_only body -> latin1_only ((if sgn then lit "-" else []) ++ body).
Proof.
  intros H. destruct sgn.
  - apply latin1_only_app; [apply latin1_only_lit | exact H].
  - exact H.
Qed.

Lemma Number_toString_latin1 (x : float) : latin1_only (Number_toString x).
Proof.
  unfold Number_toString.
  destruct (Prim2SF x) as [sgn|sgn| |sgn m e].
  - apply latin1_only_lit.
  - apply sign_prefix_latin1, latin1_only_lit.
  - apply latin1_only_lit.
  - destruct (shortest (Z.pos m) e) as [s n].
    apply sign_prefix_latin1, format_decimal_latin1.
Qed.

#[local] Hint Resolve Number_toString_latin1 : latin1.

(** ** The colour mapper *)

(** Below 360 the text of an integer-valued Number is its decimal digits. *)
Lemma hue_text_table :
  forallb
    (fun h => str_eqb (Number_toString (float_of_Z (Z.of_nat h)))
                      (decimal_digits (Z.of_nat h)))
    (seq 0 360) = true.
Proof. vm_compute. reflexivity. Qed.

Lemma hue_text (h : Z) :
  0 <= h < 360 -> Number_toString (float_of_Z h) = decimal_digits h.
Proof.
  intros Hh.
  pose proof hue_text_table as T.
  rewrite forallb_forall in T.
  specialize (T (Z.to_nat h)).
  rewrite Z2Nat.id in T by lia.
  apply str_eqb_eq, T, in_seq. lia.
Qed.

Lemma hashString_nonneg (s : jsstring) : 0 <= hashString s.
Proof. unfold hashString. apply Z.abs_nonneg. Qed.

Lemma hue_range (s : jsstring) :
  js_rem (hashString s) 360 = hashString s mod 360 /\
  0 <= hashString s mod 360 < 360.
Proof.
  split.
  - unfold js_rem. apply Z.rem_mod_nonneg; [apply hashString_nonneg | lia].
  - apply Z.mod_pos_bound. lia.
Qed.

(** C2: for every seed the colour is ["hsl(H, 70%, 50%)"] with
    [H = hashString seed mod 360], so [0 <= H < 360] and the saturation and
    the lightness are 70 and 50; equal seeds give equal colours. *)
Theorem deterministicColor_hsl :
  forall s1 s2 : jsstring,
    s1 = s2 ->
    deterministicColor s1 = deterministicColor s2 /\
    0 <= hashString s1 mod 360 < 360 /\
    deterministicColor s1 =
      lit "hsl(" ++ decimal_digits (hashString s1 mod 360)
                 ++ lit ", 70%, 50%)".
Proof.
  intros s1 s2 <-. split; [reflexivity|].
  destruct (hue_range s1) as [Hrem Hrange].
  split; [exact Hrange|].
  unfold deterministicColor.
  rewrite Hrem, (hue_text _ Hrange).
  change (Number_toString (float_of_Z 70)) with (lit "70").
  change (Number_toString (float_of_Z 50)) with (lit "50").
  reflexivity.
Qed.

(** ** The vector renderer *)

Lemma trimStart_whitespace (ws s : jsstring) :
  forallb is_js_whitespace ws = true -> trimStart (ws ++ s) = trimStart s.
Proof.
  induction ws as [|c ws IH]; simpl; intros H.
  - reflexivity.
  - apply andb_prop in H. destruct H as [Hc Hws].
    rewrite Hc. apply IH, Hws.
Qed.

Lemma trimStart_fixed_app (x s : jsstring) :
  x <> [] -> trimStart x = x -> trimStart (x ++ s) = x ++ s.
Proof.
  destruct x as [|c x]; [congruence|].
  intros _. simpl.
  destruct (is_js_whitespace c) eqn:E.
  - intros H.
    assert (Hlen : (List.length (trimStart x) <= List.length x)%nat).
    { clear. induction x as [|d x IH]; simpl; [lia|].
      destruct (is_js_whitespace d); simpl; lia. }
    rewrite H in Hlen. simpl in Hlen. lia.
  - reflexivity.
Qed.

(** Trimming removes exactly a run of trailing white space when what is in
    front of it neither starts nor ends with white space. *)
Lemma trim_trailing_whitespace (x ws : jsstring) :
  x <> [] ->
  trimStart x = x ->
  trimStart (rev x) = rev x ->
  forallb is_js_whitespace ws = true ->
  trim (x ++ ws) = x.
Proof.
  intros Hne Hstart Hend Hws.
  unfold trim, trimEnd.
  rewrite (trimStart_fixed_app x ws Hne Hstart).
  rewrite rev_app_distr, trimStart_whitespace.
  - rewrite Hend. apply rev_involutive.
  - rewrite forallb_forall in *. intros c Hc. apply Hws.
    apply in_rev. exact Hc.
Qed.

Lemma or_else_nonempty_override (field : option jsstring) (d : jsstring) :
  or_else field d = nonempty_override_or field d.
Proof. destruct field as [[|c s]|]; reflexivity. Qed.

Ltac right_nest := repeat rewrite <- app_assoc.

Lemma svg_document_shape (w h : float) (bg label fg : jsstring) (fs : float) :
  exists body : jsstring,
    svg_document w h bg label fg fs = 60%N :: body ++ [62%N].
Proof.
  unfold svg_document.
  eexists.
  change (lit "</svg>") with (lit "</svg" ++ [62%N]).
  change (litq "<?xml version='1.0' encoding='UTF-8'?>")
    with (60%N :: litq "?xml version='1.0' encoding='UTF-8'?>").
  rewrite <- app_comm_cons.
  f_equal.
  rewrite !app_assoc. reflexivity.
Qed.

(** What the template literal of [renderSvg] holds before trimming. *)
Lemma svgContent_document (w h : float) (bg label fg : jsstring) (fs : float) :
  litq "<?xml version='1.0' encoding='UTF-8'?>" ++ nl ++
  litq "    <svg width='" ++ Number_toString w
    ++ litq "' height='" ++ Number_toString h
    ++ litq "' viewBox='0 0 " ++ Number_toString w
    ++ lit " " ++ Number_toString h
    ++ litq "' xmlns='http://www.w3.org/2000/svg'>" ++ nl ++
  litq "      <rect width='100%' height='100%' fill='" ++ bg
    ++ litq "'/>" ++ nl ++
  lit "      <text" ++ nl ++
  litq "        x='50%'" ++ nl ++
  litq "        y='50%'" ++ nl ++
  litq "        font-family='sans-serif'" ++ nl ++
  litq "        font-size='" ++ Number_toString fs ++ litq "'" ++ nl ++
  litq "        fill='" ++ fg ++ litq "'" ++ nl ++
  litq "        text-anchor='middle'" ++ nl ++
  litq "        dominant-baseline='middle'" ++ nl ++
  lit "      >" ++ label ++ lit "</text>" ++ nl ++
  lit "    </svg>" ++ nl ++
  lit "  "
  = svg_document w h bg label fg fs ++ (nl ++ lit "  ").
Proof.
  unfold svg_document, svg_root_open, svg_full_rect, svg_centered_text.
  generalize (Number_toString w) (Number_toString h) (Number_toString fs).
  intros W H FS.
  right_nest.
  reflexivity.
Qed.

Lemma renderSvg_trimmed (w h : float) (bg label fg : jsstring) (fs : float) :
  trim (svg_document w h bg label fg fs ++ (nl ++ lit "  "))
  = svg_document w h bg label fg fs.
Proof.
  destruct (svg_document_shape w h bg label fg fs) as [body ->].
  apply trim_trailing_whitespace.
  - discriminate.
  - reflexivity.
  - change (60%N :: body ++ [62%N]) with ((60%N :: body) ++ [62%N]).
    rewrite rev_app_distr. reflexivity.
  - reflexivity.
Qed.

(** The markup is the template without its trailing line break and
    indentation. *)
Lemma renderSvg_is_svg_document (o : PlaceholderOptions) :
  renderSvg o =
    svg_document (width o) (height o)
      (or_else (backgroundColor o) (deterministicColor (seed o)))
      (or_else (text o) (dimensions_label (width o) (height o)))
      (or_else (textColor o) (lit "#ffffff"))
      (PrimFloat.mul (Math_min (width o) (height o)) js_0_3).
Proof.
  unfold renderSvg. cbv zeta.
  fold (dimensions_label (width o) (height o)).
  rewrite svgContent_document.
  apply renderSvg_trimmed.
Qed.

(** C3 (amended): the markup of [renderSvg] is the document whose root is
    sized [width] by [height], with a full rectangle filled with the
    background override when it is given and not empty, else with the seed's
    colour, and a centred sans-serif text node that holds the text override
    when it is given and not empty, else ["{width}x{height}"], filled with
    the textColor override when it is given and not empty, else [#ffffff],
    at the font size [Math.min(width, height) * 0.3]. *)
Theorem renderSvg_document (o : PlaceholderOptions) :
  renderSvg o =
    svg_document (width o) (height o)
      (nonempty_override_or (backgroundColor o) (deterministicColor (seed o)))
      (nonempty_override_or (text o) (dimensions_label (width o) (height o)))
      (nonempty_override_or (textColor o) (lit "#ffffff"))
      (PrimFloat.mul (Math_min (width o) (height o)) js_0_3).
Proof.
  rewrite renderSvg_is_svg_document.
  rewrite !or_else_nonempty_override.
  reflexivity.
Qed.

(** C3 (counterexample): with [text: ''] the override is given, and yet the
    label is ["100x100"], not the empty override. *)
Lemma renderSvg_empty_text_override :
  text empty_text_request = Some [] /\
  renderSvg empty_text_request <>
    svg_document (width empty_text_request) (height empty_text_request)
      (override_or (backgroundColor empty_text_request)
                   (deterministicColor (seed empty_text_request)))
      (override_or (text empty_text_request)
                   (dimensions_label (width empty_text_request)
                                     (height empty_text_request)))
      (override_or (textColor empty_text_request) (lit "#ffffff"))
      (PrimFloat.mul (Math_min (width empty_text_request)
                               (height empty_text_request)) js_0_3) /\
  includes (lit ">100x100</text>") (renderSvg empty_text_request) = true.
Proof.
  split; [reflexivity|]. split.
  - apply str_eqb_neq. vm_compute. reflexivity.
  - vm_compute. reflexivity.
Qed.

(** ** Percent-encoding *)

Lemma jsstring_pair_ind (P : jsstring -> Prop) :
  P [] ->
  (forall c, P [c]) ->
  (forall c d s, P s -> P (d :: s) -> P (c :: d :: s)) ->
  forall s, P s.
Proof.
  intros Hnil Hone Hstep.
  assert (H : forall s, P s /\ forall c, P (c :: s)).
  { induction s as [|d s [IHs IHc]].
    - split; [exact Hnil | exact Hone].
    - split; [apply IHc|]. intros c. apply Hstep; [exact IHs | apply IHc]. }
  intros s. apply H.
Qed.

Lemma in_range_spec (lo hi c : N) :
  in_range lo hi c = true <-> (lo <= c <= hi)%N.
Proof.
  unfold in_range. rewrite andb_true_iff, !N.leb_le. reflexivity.
Qed.

Lemma below_surrogates (c : code_unit) :
  (c < 0xD800)%N -> is_lead_surrogate c = false /\ is_trail_surrogate c = false.
Proof.
  intros H. unfold is_lead_surrogate, is_trail_surrogate.
  split; apply not_true_is_false; rewrite in_range_spec; lia.
Qed.

Lemma uri_unescaped_below_128 (c : code_unit) :
  uri_unescaped c = true -> (c < 128)%N.
Proof.
  unfold uri_unescaped. simpl existsb.
  rewrite !orb_true_iff, !in_range_spec, !N.eqb_eq.
  intros H. repeat destruct H as [H|H]; try lia; try discriminate.
Qed.

Lemma uri_unescaped_not_surrogate (c : code_unit) :
  uri_unescaped c = true ->
  is_lead_surrogate c = false /\ is_trail_surrogate c = false.
Proof.
  intros H. apply below_surrogates.
  pose proof (uri_unescaped_below_128 c H). lia.
Qed.

Lemma map_completion_normal {A B} (f : A -> B) (c : completion A) (b : B) :
  map_completion f c = Normal b -> exists a, c = Normal a /\ b = f a.
Proof.
  destruct c as [a|e]; simpl; intros H; [|discriminate].
  exists a. split; congruence.
Qed.

Lemma map_completion_throw {A B} (f : A -> B) (c : completion A)
    (e : js_exception) :
  map_completion f c = Throw e -> c = Throw e.
Proof. destruct c; simpl; congruence. Qed.

(** The only error of Encode is the URIError. *)
Lemma Encode_throw (u : code_unit -> bool) (s : jsstring) (e : js_exception) :
  Encode u s = Throw e -> e = URIError_malformed.
Proof.
  revert e. induction s as [|c|c d s IHs IHd] using jsstring_pair_ind;
    intros e; cbn [Encode].
  - discriminate.
  - destruct (u c); [discriminate|].
    destruct (is_trail_surrogate c); [congruence|].
    destruct (is_lead_surrogate c); [congruence|].
    simpl. discriminate.
  - destruct (u c).
    { intros H. apply map_completion_throw in H. apply IHd, H. }
    destruct (is_trail_surrogate c); [congruence|].
    destruct (is_lead_surrogate c).
    + destruct (is_trail_surrogate d); [|congruence].
      intros H. apply map_completion_throw in H. apply IHs, H.
    + intros H. apply map_completion_throw in H. apply IHd, H.
Qed.

Lemma Encode_cons (u : code_unit -> bool) (c : code_unit) (rest : jsstring) :
  Encode u (c :: rest) =
    if u c then map_completion (cons c) (Encode u rest)
    else if is_trail_surrogate c then Throw URIError_malformed
    else if is_lead_surrogate c then
      match rest with
      | d :: rest' =>
          if is_trail_surrogate d then
            map_completion (app (percent_escape (surrogate_pair c d)))
                           (Encode u rest')
          else Throw URIError_malformed
      | [] => Throw URIError_malformed
      end
    else map_completion (app (percent_escape c)) (Encode u rest).
Proof. reflexivity. Qed.

Lemma utf16_well_formed_cons (c : code_unit) (rest : jsstring) :
  utf16_well_formed (c :: rest) =
    if is_trail_surrogate c then false
    else if is_lead_surrogate c then
      match rest with
      | d :: rest' => is_trail_surrogate d && utf16_well_formed rest'
      | [] => false
      end
    else utf16_well_formed rest.
Proof. reflexivity. Qed.

Lemma map_completion_normal_iff {A B} (f : A -> B) (c : completion A) :
  (exists b, map_completion f c = Normal b) <-> (exists a, c = Normal a).
Proof.
  destruct c as [a|e]; simpl; split; intros [b Hb];
    try discriminate; eexists; reflexivity.
Qed.

(** Encode succeeds exactly on the strings without unpaired surrogates. *)
Lemma Encode_normal_iff (u : code_unit -> bool) :
  (forall c, u c = true ->
             is_lead_surrogate c = false /\ is_trail_surrogate c = false) ->
  forall s,
    (exists b, Encode u s = Normal b) <-> utf16_well_formed s = true.
Proof.
  intros Hu s.
  induction s as [|c|c d s IHs IHd] using jsstring_pair_ind.
  - split; [reflexivity | intros _; eexists; reflexivity].
  - cbn [Encode utf16_well_formed].
    destruct (u c) eqn:Ec.
    + destruct (Hu c Ec) as [-> ->].
      split; [reflexivity | intros _; eexists; reflexivity].
    + destruct (is_trail_surrogate c).
      { split; [intros [b Hb]; discriminate | discriminate]. }
      destruct (is_lead_surrogate c).
      { split; [intros [b Hb]; discriminate | discriminate]. }
      split; [reflexivity | intros _; eexists; reflexivity].
  - rewrite Encode_cons, utf16_well_formed_cons.
    destruct (u c) eqn:Ec.
    + destruct (Hu c Ec) as [-> ->].
      rewrite map_completion_normal_iff. exact IHd.
    + destruct (is_trail_surrogate c).
      { split; [intros [b Hb]; discriminate | discriminate]. }
      destruct (is_lead_surrogate c).
      * destruct (is_trail_surrogate d); cbn [andb].
        -- rewrite map_completion_normal_iff. exact IHs.
        -- split; [intros [b Hb]; discriminate | discriminate].
      * rewrite map_completion_normal_iff. exact IHd.
Qed.

Lemma jsstring_length_ind (P : jsstring -> Prop) :
  (forall s, (forall t, (List.length t < List.length s)%nat -> P t) -> P s) ->
  forall s, P s.
Proof.
  intros Hstep s.
  remember (List.length s) as n eqn:Hn.
  revert s Hn.
  induction n as [n IH] using lt_wf_ind.
  intros s ->. apply Hstep. intros t Ht. exact (IH _ Ht t eq_refl).
Qed.

(** *** The two replacements after [encodeURIComponent] *)

Lemma replace_all_app (c : code_unit) (r a b : jsstring) :
  replace_all c r (a ++ b) = replace_all c r a ++ replace_all c r b.
Proof. unfold replace_all. apply flat_map_app. Qed.

Lemma requote_app (a b : jsstring) : requote (a ++ b) = requote a ++ requote b.
Proof. unfold requote. rewrite !replace_all_app. reflexivity. Qed.

Lemma requote_cons_plain (c : code_unit) (s : jsstring) :
  is_quote c = false -> requote (c :: s) = c :: requote s.
Proof.
  unfold is_quote. intros H. apply orb_false_elim in H. destruct H as [H34 H39].
  change (c :: s) with ([c] ++ s). rewrite requote_app.
  unfold requote, replace_all. simpl. rewrite H39. simpl. rewrite H34.
  reflexivity.
Qed.

Lemma requote_quote_free (s : jsstring) : quote_free s -> requote s = s.
Proof.
  induction 1 as [|c s Hc Hs IH].
  - reflexivity.
  - rewrite requote_cons_plain, IH by exact Hc. reflexivity.
Qed.

Lemma quote_free_app (a b : jsstring) :
  quote_free a -> quote_free b -> quote_free (a ++ b).
Proof. intros Ha Hb. apply Forall_app. split; assumption. Qed.

Lemma hex_digit_not_quote (d : N) : is_quote (hex_digit d) = false.
Proof.
  unfold is_quote, hex_digit.
  destruct (N.ltb_spec d 10); apply orb_false_intro; apply N.eqb_neq; lia.
Qed.

Lemma percent_escape_quote_free (cp : N) : quote_free (percent_escape cp).
Proof.
  unfold percent_escape.
  induction (utf8_octets cp) as [|b l IH]; simpl.
  - constructor.
  - repeat constructor; try apply hex_digit_not_quote. exact IH.
Qed.

Lemma uri_unescaped_no_quote_plain (c : code_unit) :
  uri_unescaped_no_quote c = true -> is_quote c = false.
Proof.
  unfold uri_unescaped_no_quote, is_quote. intros H.
  apply andb_prop in H. destruct H as [Hu Hq].
  apply orb_false_intro.
  - apply N.eqb_neq. intros ->. discriminate Hu.
  - apply negb_true_iff, Hq.
Qed.

(** Whatever [Encode] writes without the apostrophe in its unescaped set
    holds no quote of either kind. *)
Lemma Encode_no_quote_quote_free (s : jsstring) :
  forall b, Encode uri_unescaped_no_quote s = Normal b -> quote_free b.
Proof.
  induction s as [s IH] using jsstring_length_ind.
  destruct s as [|c rest]; intros b.
  - cbn. intros [= <-]. constructor.
  - rewrite Encode_cons.
    destruct (uri_unescaped_no_quote c) eqn:Ec.
    { intros H. apply map_completion_normal in H. destruct H as [b' [Hb' ->]].
      constructor; [apply uri_unescaped_no_quote_plain, Ec|].
      apply (IH rest); [simpl; lia | exact Hb']. }
    destruct (is_trail_surrogate c); [discriminate|].
    destruct (is_lead_surrogate c).
    + destruct rest as [|d rest']; [discriminate|].
      destruct (is_trail_surrogate d); [|discriminate].
      intros H. apply map_completion_normal in H. destruct H as [b' [Hb' ->]].
      apply quote_free_app; [apply percent_escape_quote_free|].
      apply (IH rest'); [simpl; lia | exact Hb'].
    + intros H. apply map_completion_normal in H. destruct H as [b' [Hb' ->]].
      apply quote_free_app; [apply percent_escape_quote_free|].
      apply (IH rest); [simpl; lia | exact Hb'].
Qed.

(** [encodeURIComponent] followed by the two replacements is the
    percent-encoding whose unescaped set lacks the apostrophe. *)
Lemma Encode_requote (s : jsstring) :
  forall b,
    encodeURIComponent s = Normal b ->
    Encode uri_unescaped_no_quote s = Normal (requote b).
Proof.
  unfold encodeURIComponent.
  induction s as [s IH] using jsstring_length_ind.
  destruct s as [|c rest]; intros b.
  - cbn. intros [= <-]. reflexivity.
  - rewrite !Encode_cons. unfold uri_unescaped_no_quote at 1.
    destruct (uri_unescaped c) eqn:Ec.
    + intros H. apply map_completion_normal in H. destruct H as [b' [Hb' ->]].
      rewrite (IH rest ltac:(simpl; lia) b' Hb').
      destruct (N.eqb_spec c 39) as [->|Hc].
      * reflexivity.
      * cbn [andb negb map_completion].
        rewrite requote_cons_plain; [reflexivity|].
        apply orb_false_intro; apply N.eqb_neq; [|exact Hc].
        intros ->. discriminate Ec.
    + cbn [andb].
      destruct (is_trail_surrogate c); [discriminate|].
      destruct (is_lead_surrogate c).
      * destruct rest as [|d rest']; [discriminate|].
        destruct (is_trail_surrogate d); [|discriminate].
        intros H. apply map_completion_normal in H.
        destruct H as [b' [Hb' ->]].
        rewrite (IH rest' ltac:(simpl; lia) b' Hb'). cbn [map_completion].
        rewrite requote_app, (requote_quote_free (percent_escape _))
          by apply percent_escape_quote_free.
        reflexivity.
      * intros H. apply map_completion_normal in H.
        destruct H as [b' [Hb' ->]].
        rewrite (IH rest ltac:(simpl; lia) b' Hb'). cbn [map_completion].
        rewrite requote_app, (requote_quote_free (percent_escape _))
          by apply percent_escape_quote_free.
        reflexivity.
Qed.

(** *** Well-formed markup *)

Lemma latin1_well_formed (s : jsstring) :
  latin1_only s -> utf16_well_formed s = true.
Proof.
  induction 1 as [|c s Hc Hs IH].
  - reflexivity.
  - rewrite utf16_well_formed_cons.
    destruct (below_surrogates c ltac:(lia)) as [-> ->]. exact IH.
Qed.

Lemma well_formed_app (a b : jsstring) :
  utf16_well_formed a = true -> utf16_well_formed b = true ->
  utf16_well_formed (a ++ b) = true.
Proof.
  intros Ha Hb. revert Ha.
  induction a as [|c|c d a IHa IHd] using jsstring_pair_ind.
  - intros _. exact Hb.
  - cbn [app]. rewrite !utf16_well_formed_cons.
    destruct (is_trail_surrogate c); [discriminate|].
    destruct (is_lead_surrogate c); [discriminate|].
    intros _. exact Hb.
  - change ((c :: d :: a) ++ b) with (c :: (d :: a) ++ b).
    rewrite !(utf16_well_formed_cons c).
    destruct (is_trail_surrogate c); [discriminate|].
    destruct (is_lead_surrogate c).
    + cbn [app]. intros H. apply andb_prop in H. destruct H as [-> Ha].
      apply IHa, Ha.
    + exact IHd.
Qed.

Lemma deterministicColor_latin1 (s : jsstring) :
  latin1_only (deterministicColor s).
Proof. unfold deterministicColor. cbv zeta. auto 12 with latin1. Qed.

Lemma dimensions_label_latin1 (w h : float) : latin1_only (dimensions_label w h).
Proof. unfold dimensions_label. auto with latin1. Qed.

Lemma or_else_well_formed (field : option jsstring) (d : jsstring) :
  field_well_formed field -> utf16_well_formed d = true ->
  utf16_well_formed (or_else field d) = true.
Proof.
  destruct field as [[|c s]|]; simpl; intros Hf Hd; assumption.
Qed.

Ltac well_formed_leaf :=
  first [ assumption
        | apply latin1_well_formed, Number_toString_latin1
        | apply latin1_well_formed, latin1_only_lit
        | reflexivity ].

Lemma svg_document_well_formed (w h : float) (bg label fg : jsstring)
    (fs : float) :
  utf16_well_formed bg = true ->
  utf16_well_formed label = true ->
  utf16_well_formed fg = true ->
  utf16_well_formed (svg_document w h bg label fg fs) = true.
Proof.
  intros Hbg Hlabel Hfg.
  unfold svg_document, svg_root_open, svg_full_rect, svg_centered_text.
  right_nest.
  repeat (apply well_formed_app; [well_formed_leaf|]).
  well_formed_leaf.
Qed.

Lemma renderSvg_well_formed (o : PlaceholderOptions) :
  field_well_formed (text o) ->
  field_well_formed (textColor o) ->
  field_well_formed (backgroundColor o) ->
  utf16_well_formed (renderSvg o) = true.
Proof.
  intros Ht Hc Hb. rewrite renderSvg_is_svg_document.
  apply svg_document_well_formed;
    apply or_else_well_formed; try assumption.
  - apply latin1_well_formed, deterministicColor_latin1.
  - apply latin1_well_formed, dimensions_label_latin1.
  - reflexivity.
Qed.

(** ** The dispatcher *)

Lemma generatePlaceholder_svg (o : PlaceholderOptions) (host : Host)
    (st : State) :
  format o = Some (lit "svg") ->
  generatePlaceholder o host st =
    match encodeURIComponent (renderSvg o) with
    | Normal b =>
        (Normal (svg_data_url_prefix ++ requote b), entered RenderSvg st)
    | Throw e => (Throw e, entered RenderSvg st)
    end.
Proof.
  intros Hf. unfold generatePlaceholder. rewrite Hf.
  change (or_else (Some (lit "svg")) (lit "png")) with (lit "svg").
  rewrite str_eqb_refl.
  unfold bind, record, of_completion, ret.
  destruct (encodeURIComponent (renderSvg o)); reflexivity.
Qed.

Lemma generatePlaceholder_png (o : PlaceholderOptions) (host : Host)
    (st : State) :
  or_else (format o) (lit "png") = lit "png" ->
  generatePlaceholder o host st = renderPng o host (entered RenderPng st).
Proof.
  intros Hf. unfold generatePlaceholder. rewrite Hf.
  change (str_eqb (lit "png") (lit "svg")) with false.
  rewrite str_eqb_refl. reflexivity.
Qed.

Lemma generatePlaceholder_unsupported (o : PlaceholderOptions) (host : Host)
    (st : State) :
  or_else (format o) (lit "png") <> lit "svg" ->
  or_else (format o) (lit "png") <> lit "png" ->
  generatePlaceholder o host st =
    (Throw (new_Error (unsupported_format_message
                         (or_else (format o) (lit "png")))), st).
Proof.
  intros Hsvg Hpng. unfold generatePlaceholder. cbv zeta.
  apply str_eqb_neq in Hsvg, Hpng. rewrite Hsvg, Hpng. reflexivity.
Qed.

(** C4 (counterexample): the empty string is a format value other than
    ['svg'] and ['png'], and the call does not fail: the canvas renderer is
    entered and its data URL returned. *)
Lemma generatePlaceholder_empty_format :
  format empty_format_request = Some [] /\
  [] <> lit "svg" /\ [] <> lit "png" /\
  fst (generatePlaceholder empty_format_request browser_host initial_state)
    = Normal (lit "data:image/png;base64,mocked-png-data") /\
  In (Enter RenderPng)
     (calls (snd (generatePlaceholder empty_format_request browser_host
                                      initial_state))).
Proof.
  split; [reflexivity|].
  split; [discriminate|].
  split; [discriminate|].
  split.
  - vm_compute. reflexivity.
  - vm_compute. left. reflexivity.
Qed.

(** C4 (amended): a missing format, like an empty one, means ['png']: the
    call is the one with [format: 'png'], which enters the canvas renderer;
    and for every format
    value that is not empty and is neither ['svg'] nor ['png'] the call
    fails with "Unsupported format: {format}. Only 'png' and 'svg' are
    supported.", the state and the log of calls untouched: no renderer was
    entered and the host was not called. *)
Theorem generatePlaceholder_format_dispatch
    (o : PlaceholderOptions) (f : jsstring) (host : Host) (st : State) :
  f <> [] -> f <> lit "svg" -> f <> lit "png" ->
  generatePlaceholder (with_format None o) host st
    = generatePlaceholder (with_format (Some (lit "png")) o) host st /\
  generatePlaceholder (with_format (Some []) o) host st
    = generatePlaceholder (with_format (Some (lit "png")) o) host st /\
  generatePlaceholder (with_format None o) host st
    = renderPng o host (entered RenderPng st) /\
  generatePlaceholder (with_format (Some f) o) host st
    = (Throw (new_Error (lit "Unsupported format: " ++ f
                           ++ lit ". Only 'png' and 'svg' are supported.")),
       st).
Proof.
  intros Hne Hsvg Hpng.
  assert (Hf : or_else (format (with_format (Some f) o)) (lit "png") = f).
  { destruct f; [congruence | reflexivity]. }
  split; [|split; [|split]].
  - rewrite !generatePlaceholder_png by reflexivity. reflexivity.
  - rewrite !generatePlaceholder_png by reflexivity. reflexivity.
  - rewrite generatePlaceholder_png by reflexivity. reflexivity.
  - rewrite generatePlaceholder_unsupported; rewrite Hf; auto.
Qed.

Lemma generatePlaceholder_format_dispatch_jpeg :
  lit "jpeg" <> [] /\ lit "jpeg" <> lit "svg" /\ lit "jpeg" <> lit "png" /\
  generatePlaceholder jpeg_request node_host_with_canvas initial_state
    = (Throw (new_Error
                (lit "Unsupported format: jpeg. Only 'png' and 'svg' are supported.")),
       initial_state).
Proof.
  assert (H1 : lit "jpeg" <> []) by discriminate.
  assert (H2 : lit "jpeg" <> lit "svg") by discriminate.
  assert (H3 : lit "jpeg" <> lit "png") by discriminate.
  split; [exact H1|]. split; [exact H2|]. split; [exact H3|].
  exact (proj2 (proj2 (proj2 (generatePlaceholder_format_dispatch
                                (request 100 100 "invalid") (lit "jpeg")
                                node_host_with_canvas initial_state
                                H1 H2 H3)))).
Defined.

(** C5 (counterexample): a vector request whose label is half of a
    surrogate pair returns no data URL; [encodeURIComponent] throws. *)
Lemma generatePlaceholder_svg_half_emoji :
  format half_emoji_request = Some (lit "svg") /\
  generatePlaceholder half_emoji_request node_host_with_canvas initial_state
    = (Throw URIError_malformed, entered RenderSvg initial_state).
Proof. split; [reflexivity|]. vm_compute. reflexivity. Qed.

(** On markup without unpaired surrogates the dispatcher returns the prefix
    and the encoding that also escapes the apostrophe. *)
Lemma generatePlaceholder_svg_well_formed
    (o : PlaceholderOptions) (host : Host) (st : State) :
  format o = Some (lit "svg") ->
  utf16_well_formed (renderSvg o) = true ->
  exists body,
    Encode uri_unescaped_no_quote (renderSvg o) = Normal body /\
    quote_free body /\
    generatePlaceholder o host st
      = (Normal (svg_data_url_prefix ++ body), entered RenderSvg st).
Proof.
  intros Hf Hwf.
  rewrite (generatePlaceholder_svg o host st Hf).
  apply (Encode_normal_iff uri_unescaped uri_unescaped_not_surrogate) in Hwf.
  destruct Hwf as [b Hb]. fold (encodeURIComponent (renderSvg o)) in Hb.
  rewrite Hb. exists (requote b).
  pose proof (Encode_requote _ _ Hb) as Hq.
  split; [exact Hq|]. split; [|reflexivity].
  apply (Encode_no_quote_quote_free _ _ Hq).
Qed.

(** On markup with an unpaired surrogate the dispatcher rejects with the
    URIError of [encodeURIComponent]. *)
Lemma generatePlaceholder_svg_ill_formed
    (o : PlaceholderOptions) (host : Host) (st : State) :
  format o = Some (lit "svg") ->
  utf16_well_formed (renderSvg o) = false ->
  generatePlaceholder o host st
    = (Throw URIError_malformed, entered RenderSvg st).
Proof.
  intros Hf Hwf.
  rewrite (generatePlaceholder_svg o host st Hf).
  destruct (encodeURIComponent (renderSvg o)) as [b|e] eqn:He.
  - assert (Ht : utf16_well_formed (renderSvg o) = true).
    { apply (Encode_normal_iff uri_unescaped uri_unescaped_not_surrogate).
      exists b. exact He. }
    congruence.
  - apply Encode_throw in He. subst e. reflexivity.
Qed.

(** C5 (amended): for every request with the svg format whose markup holds
    no unpaired surrogate, the result is
    ["data:image/svg+xml;charset=utf-8,"] followed by the percent-encoding
    of the markup in which the apostrophe is escaped as well (as [%27]; the
    double quote is escaped as [%22]), so that the body holds no quote of
    either kind; when the markup holds an unpaired surrogate the call
    rejects with the URIError of [encodeURIComponent]. *)
Theorem generatePlaceholder_svg_data_url
    (o : PlaceholderOptions) (host : Host) (st : State) :
  format o = Some (lit "svg") ->
  (utf16_well_formed (renderSvg o) = true ->
   exists body,
     Encode uri_unescaped_no_quote (renderSvg o) = Normal body /\
     quote_free body /\
     generatePlaceholder o host st
       = (Normal (lit "data:image/svg+xml;charset=utf-8," ++ body),
          entered RenderSvg st)) /\
  (utf16_well_formed (renderSvg o) = false ->
   generatePlaceholder o host st
     = (Throw URIError_malformed, entered RenderSvg st)) /\
  uri_unescaped_no_quote 39%N = false /\ percent_escape 39%N = lit "%27" /\
  uri_unescaped_no_quote 34%N = false /\ percent_escape 34%N = lit "%22".
Proof.
  intros Hf.
  split; [|split; [|repeat split]].
  - apply generatePlaceholder_svg_well_formed, Hf.
  - apply generatePlaceholder_svg_ill_formed, Hf.
Qed.

Lemma generatePlaceholder_svg_data_url_test_svg :
  format svg_request = Some (lit "svg") /\
  utf16_well_formed (renderSvg svg_request) = true /\
  exists body,
    Encode uri_unescaped_no_quote (renderSvg svg_request) = Normal body /\
    quote_free body /\
    generatePlaceholder svg_request node_host_without_canvas initial_state
      = (Normal (lit "data:image/svg+xml;charset=utf-8," ++ body),
         entered RenderSvg initial_state).
Proof.
  assert (Hf : format svg_request = Some (lit "svg")) by reflexivity.
  assert (Hwf : utf16_well_formed (renderSvg svg_request) = true).
  { vm_compute. reflexivity. }
  split; [exact Hf|]. split; [exact Hwf|].
  exact (proj1 (generatePlaceholder_svg_data_url
                  svg_request node_host_without_canvas initial_state Hf) Hwf).
Defined.

(** C9 (counterexample): a vector request with positive dimensions fails,
    and not with the error of the unsupported-format check: the stray
    surrogate in the background override makes [encodeURIComponent] throw
    after the renderer was entered. *)
Lemma generatePlaceholder_svg_stray_surrogate :
  format stray_surrogate_request = Some (lit "svg") /\
  PrimFloat.ltb 0 (width stray_surrogate_request) = true /\
  PrimFloat.ltb 0 (height stray_surrogate_request) = true /\
  fst (generatePlaceholder stray_surrogate_request node_host_with_canvas
                           initial_state)
    = Throw URIError_malformed /\
  URIError_malformed
    <> new_Error (unsupported_format_message (lit "svg")) /\
  In (Enter RenderSvg)
     (calls (snd (generatePlaceholder stray_surrogate_request
                                      node_host_with_canvas initial_state))).
Proof.
  split; [reflexivity|].
  split; [reflexivity|].
  split; [reflexivity|].
  split; [vm_compute; reflexivity|].
  split; [discriminate|].
  vm_compute. left. reflexivity.
Qed.

(** C9 (amended): off the raster path a call can fail in two ways only.
    With the svg format it succeeds whenever the text, textColor and
    backgroundColor overrides hold no unpaired surrogate, and its only
    failure is the URIError of [encodeURIComponent] on markup that holds
    one; with any other format the failure is the unsupported-format error,
    raised with the state and the log untouched, before any renderer is
    entered. *)
Theorem vector_path_failures
    (o : PlaceholderOptions) (host : Host) (st : State) :
  or_else (format o) (lit "png") <> lit "png" ->
  (format o = Some (lit "svg") ->
   field_well_formed (text o) ->
   field_well_formed (textColor o) ->
   field_well_formed (backgroundColor o) ->
   exists url, generatePlaceholder o host st
               = (Normal url, entered RenderSvg st)) /\
  (forall e,
     fst (generatePlaceholder o host st) = Throw e ->
     (e = URIError_malformed /\
      format o = Some (lit "svg") /\
      utf16_well_formed (renderSvg o) = false)
     \/
     (e = new_Error (unsupported_format_message
                       (or_else (format o) (lit "png"))) /\
      format o <> Some (lit "svg") /\
      snd (generatePlaceholder o host st) = st)).
Proof.
  intros Hpng. split.
  - intros Hf Ht Hc Hb.
    destruct (generatePlaceholder_svg_well_formed
                o host st Hf (renderSvg_well_formed o Ht Hc Hb))
      as [body [_ [_ Hgen]]].
    eexists. exact Hgen.
  - intros e He.
    destruct (jsstring_eq_dec (or_else (format o) (lit "png")) (lit "svg"))
      as [Hsvg|Hsvg].
    + left.
      assert (Hf : format o = Some (lit "svg")).
      { destruct (format o) as [[|c f]|]; simpl in Hsvg;
          try discriminate Hsvg. rewrite Hsvg. reflexivity. }
      rewrite (generatePlaceholder_svg o host st Hf) in He.
      destruct (encodeURIComponent (renderSvg o)) as [b|e'] eqn:Henc;
        simpl in He; [discriminate|].
      injection He as ->.
      split; [apply (Encode_throw _ _ _ Henc)|]. split; [exact Hf|].
      apply not_true_is_false. intros Hwf.
      apply (Encode_normal_iff uri_unescaped uri_unescaped_not_surrogate)
        in Hwf.
      destruct Hwf as [b Hb]. unfold encodeURIComponent in Henc. congruence.
    + right.
      rewrite (generatePlaceholder_unsupported o host st Hsvg Hpng) in *.
      simpl in He. injection He as <-.
      split; [reflexivity|]. split; [|reflexivity].
      intros Hf. rewrite Hf in Hsvg. apply Hsvg. reflexivity.
Qed.

Lemma vector_path_failures_test_svg :
  or_else (format svg_request) (lit "png") <> lit "png" /\
  exists url, generatePlaceholder svg_request node_host_without_canvas
                                  initial_state
              = (Normal url, entered RenderSvg initial_state).
Proof.
  assert (H : or_else (format svg_request) (lit "png") <> lit "png")
    by discriminate.
  split; [exact H|].
  exact (proj1 (vector_path_failures svg_request node_host_without_canvas
                                     initial_state H)
               eq_refl I I I).
Defined.

(** ** The canvas renderer *)

(** C10: in both renderers an override that is the empty string gives
    exactly what the same request gives without that field; so an empty
    text override still shows the ["{width}x{height}"] label. *)
Theorem empty_override_is_absent
    (o : PlaceholderOptions) (host : Host) (st : State) :
  renderSvg (with_text (Some []) o) = renderSvg (with_text None o) /\
  renderSvg (with_textColor (Some []) o)
    = renderSvg (with_textColor None o) /\
  renderSvg (with_backgroundColor (Some []) o)
    = renderSvg (with_backgroundColor None o) /\
  renderPng (with_text (Some []) o) host st
    = renderPng (with_text None o) host st /\
  renderPng (with_textColor (Some []) o) host st
    = renderPng (with_textColor None o) host st /\
  renderPng (with_backgroundColor (Some []) o) host st
    = renderPng (with_backgroundColor None o) host st /\
  includes (lit ">100x100</text>") (renderSvg empty_text_request) = true /\
  includes (lit "></text>") (renderSvg empty_text_request) = false.
Proof.
  do 6 (split; [reflexivity|]).
  split; vm_compute; reflexivity.
Qed.

Ltac run_renderPng_head :=
  unfold renderPng;
  cbv beta zeta delta [bind try_catch window_is_undefined read_NodeCanvas
                       import_module record of_completion write_NodeCanvas
                       write_NodeImage].

(** C7: without [window], when the load of the optional module fails with
    the code MODULE_NOT_FOUND, [renderPng] rejects with the error that tells
    to install [canvas] or to use the svg format; when the load fails with
    anything else, it rejects with that very error. *)
Theorem renderPng_module_load_failure
    (o : PlaceholderOptions) (host : Host) (st : State) (e : js_exception) :
  window_defined host = false ->
  NodeCanvas st = None ->
  import_canvas host (load_attempts (calls st)) = Throw e ->
  (code_is e (lit "MODULE_NOT_FOUND") = true ->
   fst (renderPng o host st) = Throw (new_Error canvas_missing_message)) /\
  (code_is e (lit "MODULE_NOT_FOUND") = false ->
   fst (renderPng o host st) = Throw e) /\
  includes (lit "npm install canvas") canvas_missing_message = true /\
  includes (litq "use `format: 'svg'`") canvas_missing_message = true.
Proof.
  intros Hwin Hcache Himport.
  split; [|split; [|split; vm_compute; reflexivity]].
  - intros Hcode. run_renderPng_head.
    rewrite Hwin. cbn [negb]. rewrite Hcache. cbn [calls].
    rewrite Himport, Hcode. reflexivity.
  - intros Hcode. run_renderPng_head.
    rewrite Hwin. cbn [negb]. rewrite Hcache. cbn [calls].
    rewrite Himport, Hcode. reflexivity.
Qed.

Lemma renderPng_module_load_failure_not_found :
  window_defined node_host_without_canvas = false /\
  NodeCanvas initial_state = None /\
  import_canvas node_host_without_canvas
                (load_attempts (calls initial_state))
    = Throw module_not_found /\
  fst (renderPng png_request node_host_without_canvas initial_state)
    = Throw (new_Error canvas_missing_message).
Proof.
  split; [reflexivity|]. split; [reflexivity|]. split; [reflexivity|].
  exact (proj1 (renderPng_module_load_failure
                  png_request node_host_without_canvas initial_state
                  module_not_found eq_refl eq_refl eq_refl)
               eq_refl).
Defined.

(** An error of the load other than MODULE_NOT_FOUND reaches the caller as
    it is. *)
Example renderPng_dlopen_failure_rethrown :
  fst (renderPng png_request node_host_broken_canvas initial_state)
    = Throw dlopen_failed.
Proof. vm_compute. reflexivity. Qed.

(** *** The cached module *)

Lemma load_attempts_app (a b : list host_call) :
  load_attempts (a ++ b) = (load_attempts a + load_attempts b)%nat.
Proof. unfold load_attempts. rewrite filter_app, length_app. reflexivity. Qed.

Lemma keeps_cache_ret {A} (ns : CanvasNamespace) (a : A) :
  keeps_cache ns (ret a).
Proof. intros host st H. split; [exact H | reflexivity]. Qed.

Lemma keeps_cache_throw {A} (ns : CanvasNamespace) (e : js_exception) :
  keeps_cache ns (@throw A e).
Proof. intros host st H. split; [exact H | reflexivity]. Qed.

Lemma keeps_cache_of_completion {A} (ns : CanvasNamespace) (c : completion A) :
  keeps_cache ns (of_completion c).
Proof. intros host st H. split; [exact H | reflexivity]. Qed.

Lemma keeps_cache_window (ns : CanvasNamespace) :
  keeps_cache ns window_is_undefined.
Proof. intros host st H. split; [exact H | reflexivity]. Qed.

Lemma keeps_cache_record (ns : CanvasNamespace) (c : host_call) :
  is_import c = false -> keeps_cache ns (record c).
Proof.
  intros Hc host st H. split; [exact H|].
  cbn [record snd calls]. rewrite load_attempts_app.
  unfold load_attempts at 2. cbn [filter]. rewrite Hc. cbn. lia.
Qed.

Lemma keeps_cache_bind {A B} (ns : CanvasNamespace) (m : M A) (k : A -> M B) :
  keeps_cache ns m -> (forall a, keeps_cache ns (k a)) ->
  keeps_cache ns (bind m k).
Proof.
  intros Hm Hk host st H. unfold bind.
  destruct (Hm host st H) as [Hc Hl].
  destruct (m host st) as [[a|e] st']; cbn [snd] in *.
  - destruct (Hk a host st' Hc) as [Hc' Hl']. split; congruence.
  - split; assumption.
Qed.

(** Reading the cache yields the cached module. *)
Lemma keeps_cache_read {B} (ns : CanvasNamespace)
    (k : option CanvasNamespace -> M B) :
  keeps_cache ns (k (Some ns)) -> keeps_cache ns (bind read_NodeCanvas k).
Proof.
  intros Hk host st H. unfold bind, read_NodeCanvas. rewrite H.
  apply Hk, H.
Qed.

Ltac keeps_cache_step :=
  first [ apply keeps_cache_ret
        | apply keeps_cache_throw
        | apply keeps_cache_of_completion
        | apply keeps_cache_window
        | apply keeps_cache_record; reflexivity
        | apply keeps_cache_read; cbv beta iota
        | apply keeps_cache_bind; [|intros ?] ].

Lemma keeps_cache_createCanvas (ns : CanvasNamespace) (w h : float) :
  keeps_cache ns (NodeCanvas_createCanvas w h).
Proof. unfold NodeCanvas_createCanvas. repeat keeps_cache_step. Qed.

Lemma keeps_cache_createElement (ns : CanvasNamespace) (tag : jsstring) :
  keeps_cache ns (document_createElement tag).
Proof.
  intros host st H. unfold document_createElement.
  assert (K : keeps_cache ns (record (CreateElement tag) ;;;
                              ret (document_canvas host))).
  { repeat keeps_cache_step. }
  apply K, H.
Qed.

Lemma keeps_cache_getContext (ns : CanvasNamespace) (s : Surface)
    (kind : jsstring) :
  keeps_cache ns (getContext s kind).
Proof. unfold getContext. repeat keeps_cache_step. Qed.

Lemma keeps_cache_surface_do (ns : CanvasNamespace) (op : canvas_op) :
  keeps_cache ns (surface_do op).
Proof. unfold surface_do. repeat keeps_cache_step. Qed.

Lemma keeps_cache_toDataURL (ns : CanvasNamespace) (s : Surface)
    (mime : jsstring) :
  keeps_cache ns (toDataURL s mime).
Proof.
  intros host st H. unfold toDataURL.
  assert (K : keeps_cache ns
                (record (ToDataURL mime) ;;;
                 ret (surface_data_url s (surface_ops (calls st))))).
  { repeat keeps_cache_step. }
  apply K, H.
Qed.

(** With the module cached, a call keeps it and attempts no load. *)
Lemma renderPng_keeps_cache (ns : CanvasNamespace) (o : PlaceholderOptions) :
  keeps_cache ns (renderPng o).
Proof.
  unfold renderPng. cbv zeta.
  apply keeps_cache_bind.
  - apply keeps_cache_bind; [apply keeps_cache_window|].
    intros [|].
    + apply keeps_cache_read. cbv beta iota.
      apply keeps_cache_bind; [apply keeps_cache_ret|].
      intros _. apply keeps_cache_createCanvas.
    + apply keeps_cache_bind; [apply keeps_cache_createElement|].
      intros canvasElement.
      repeat (apply keeps_cache_bind; [apply keeps_cache_surface_do|intros _]).
      apply keeps_cache_ret.
  - intros canvasElement.
    apply keeps_cache_bind; [apply keeps_cache_getContext|].
    intros ctx. destruct (negb ctx); [apply keeps_cache_throw|].
    repeat (apply keeps_cache_bind; [apply keeps_cache_surface_do|intros _]).
    apply keeps_cache_toDataURL.
Qed.

Lemma run_renderPng_keeps_cache (ns : CanvasNamespace) (host : Host)
    (requests : list PlaceholderOptions) :
  forall st,
    NodeCanvas st = Some ns ->
    NodeCanvas (run_renderPng host requests st) = Some ns /\
    load_attempts (calls (run_renderPng host requests st))
      = load_attempts (calls st).
Proof.
  induction requests as [|o requests IH]; intros st H; simpl.
  - split; [exact H | reflexivity].
  - destruct (renderPng_keeps_cache ns o host st H) as [Hc Hl].
    destruct (IH _ Hc) as [Hc' Hl'].
    split; congruence.
Qed.

(** A call that finds the cache empty attempts the load exactly once, and
    afterwards the cache holds the [Canvas] export of the module if the
    load yielded one, and nothing otherwise. *)
Lemma renderPng_on_empty_cache (host : Host) (o : PlaceholderOptions)
    (st : State) :
  window_defined host = false ->
  NodeCanvas st = None ->
  load_attempts (calls (snd (renderPng o host st)))
    = S (load_attempts (calls st)) /\
  NodeCanvas (snd (renderPng o host st))
    = match import_canvas host (load_attempts (calls st)) with
      | Normal m => module_Canvas m
      | Throw _ => None
      end.
Proof.
  intros Hwin Hcache.
  run_renderPng_head.
  rewrite Hwin. cbn [negb]. rewrite Hcache. cbn [calls].
  destruct (import_canvas host (load_attempts (calls st))) as [m|e].
  - cbv [NodeCanvas_createCanvas bind read_NodeCanvas record of_completion
         throw NodeCanvas NodeImage calls].
    destruct (module_Canvas m) as [ns|].
    + destruct (createCanvas ns (width o) (height o)) as [surface|e];
        [cbv [getContext bind record ret];
         destruct (surface_has_context surface)|];
        cbv [negb snd surface_do toDataURL bind record ret throw
             NodeCanvas NodeImage calls];
        (split; [|reflexivity]);
        rewrite !load_attempts_app; cbn; lia.
    + cbv [snd NodeCanvas calls]. split; [|reflexivity].
      rewrite load_attempts_app. cbn. lia.
  - destruct (code_is e (lit "MODULE_NOT_FOUND"));
      cbv [throw]; cbn [snd NodeCanvas calls];
      (split; [|exact Hcache]);
      rewrite load_attempts_app; cbn; lia.
Qed.

(** C8 (counterexample): where the optional module is missing, the first
    call attempts the load and the second call attempts it again; and so
    does the second call where the module loads but has no [Canvas]
    export. *)
Lemma load_attempted_again_after_failure :
  load_attempts
    (calls (run_renderPng node_host_without_canvas [png_request]
                          initial_state)) = 1%nat /\
  load_attempts
    (calls (run_renderPng node_host_without_canvas [png_request; png_request]
                          initial_state)) = 2%nat /\
  load_attempts
    (calls (run_renderPng node_host_with_empty_module
                          [png_request; png_request]
                          initial_state)) = 2%nat.
Proof. repeat apply conj; vm_compute; reflexivity. Qed.

(** C8 (amended): a call without [window] that finds the cache empty
    attempts the load once.  When the load yields a module with a [Canvas]
    export, that export is cached in the module-level variable and from
    then on no call of the process attempts the load again: whatever calls
    follow, the cached export stays and the number of attempts does not
    grow.  When the load fails, or yields a module without a [Canvas]
    export, the cache stays empty and the next call, whatever its request,
    attempts the load again. *)
Theorem successful_load_is_cached
    (host : Host) (o : PlaceholderOptions) (st : State)
    (later : list PlaceholderOptions) :
  window_defined host = false ->
  NodeCanvas st = None ->
  load_attempts (calls (snd (renderPng o host st)))
    = S (load_attempts (calls st)) /\
  (forall m ns,
     import_canvas host (load_attempts (calls st)) = Normal m ->
     module_Canvas m = Some ns ->
     NodeCanvas (snd (renderPng o host st)) = Some ns /\
     NodeCanvas (run_renderPng host later (snd (renderPng o host st)))
       = Some ns /\
     load_attempts
       (calls (run_renderPng host later (snd (renderPng o host st))))
       = load_attempts (calls (snd (renderPng o host st)))) /\
  ((exists e, import_canvas host (load_attempts (calls st)) = Throw e) \/
   (exists m, import_canvas host (load_attempts (calls st)) = Normal m /\
              module_Canvas m = None) ->
   NodeCanvas (snd (renderPng o host st)) = None /\
   forall next,
     load_attempts
       (calls (snd (renderPng next host (snd (renderPng o host st)))))
       = S (load_attempts (calls (snd (renderPng o host st))))).
Proof.
  intros Hwin Hcache.
  destruct (renderPng_on_empty_cache host o st Hwin Hcache) as [Hl Hc].
  split; [exact Hl|]. split.
  - intros m ns Himport Hcanvas.
    rewrite Himport, Hcanvas in Hc.
    destruct (run_renderPng_keeps_cache ns host later _ Hc) as [Hc' Hl'].
    repeat apply conj; assumption.
  - intros Hempty.
    assert (Hnone : NodeCanvas (snd (renderPng o host st)) = None).
    { destruct Hempty as [[e He]|[m [Hm Hcanvas]]].
      - rewrite He in Hc. exact Hc.
      - rewrite Hm, Hcanvas in Hc. exact Hc. }
    split; [exact Hnone|].
    intros next.
    apply (renderPng_on_empty_cache host next _ Hwin Hnone).
Qed.

Lemma successful_load_is_cached_sample :
  window_defined node_host_with_canvas = false /\
  NodeCanvas initial_state = None /\
  load_attempts
    (calls (run_renderPng node_host_with_canvas
                          [png_request; svg_request; jpeg_request]
                          (snd (renderPng png_request node_host_with_canvas
                                          initial_state))))
    = load_attempts
        (calls (snd (renderPng png_request node_host_with_canvas
                               initial_state))).
Proof.
  split; [reflexivity|]. split; [reflexivity|].
  exact (proj2 (proj2
           (proj1 (proj2
              (successful_load_is_cached
                 node_host_with_canvas png_request initial_state
                 [png_request; svg_request; jpeg_request]
                 eq_refl eq_refl))
              sample_canvas_module
              {| createCanvas := fun _ _ => Normal sample_surface |}
              eq_refl eq_refl))).
Defined.

(** ** Instances of the hash and of the colour *)

Lemma hashString_nonneg_32bit_test :
  lit "test" = lit "test" /\
  hashString (lit "test") = hashString (lit "test") /\
  0 <= hashString (lit "test") /\ hashString (lit "test") < 2 ^ 32.
Proof.
  split; [reflexivity|].
  exact (hashString_nonneg_32bit (lit "test") (lit "test") eq_refl).
Defined.

Lemma deterministicColor_hsl_test :
  lit "test" = lit "test" /\
  deterministicColor (lit "test") = deterministicColor (lit "test") /\
  0 <= hashString (lit "test") mod 360 < 360 /\
  deterministicColor (lit "test") =
    lit "hsl(" ++ decimal_digits (hashString (lit "test") mod 360)
               ++ lit ", 70%, 50%)".
Proof.
  split; [reflexivity|].
  exact (deterministicColor_hsl (lit "test") (lit "test") eq_refl).
Defined.

(** The values the tests of the repository look at. *)
Example hashString_samples :
  hashString (lit "test") = 3556498 /\
  hashString (lit "negative") = 921111605 /\
  deterministicColor (lit "test") = lit "hsl(58, 70%, 50%)".
Proof. repeat apply conj; vm_compute; reflexivity. Qed.

(** The largest hash: the accumulator can end at [-2^31], whose absolute
    value [2^31] needs the 32nd bit. *)
Example hashString_reaches_2_31 : hashString (lit "xfjfxtf") = 2 ^ 31.
Proof. vm_compute. reflexivity. Qed.

(** Font sizes are products of doubles: 22.5 for 100 by 75, and not quite
    nine tenths for 3 by 3. *)
Example font_size_samples :
  Number_toString (PrimFloat.mul (Math_min 100 75) js_0_3) = lit "22.5" /\
  Number_toString (PrimFloat.mul (Math_min 3 3) js_0_3)
    = lit "0.8999999999999999".
Proof. repeat apply conj; vm_compute; reflexivity. Qed.

(** ** The built-ins on known values *)

Ltac compute_conj := repeat apply conj; vm_compute; reflexivity.

Example Number_toString_samples :
  Number_toString 100 = lit "100" /\
  Number_toString 37.5 = lit "37.5" /\
  Number_toString (PrimFloat.opp 0) = lit "0" /\
  Number_toString (PrimFloat.div 0 0) = lit "NaN" /\
  Number_toString (PrimFloat.div 1 0) = lit "Infinity" /\
  Number_toString 0x1.b1ae4d6e2ef5p+69 = lit "1e+21" /\
  Number_toString 0x1.5af1d78b58c4p+66 = lit "100000000000000000000" /\
  Number_toString 0x1.421f5f40d8376p-23 = lit "1.5e-7" /\
  Number_toString 0x0.0000000000001p-1022 = lit "5e-324".
Proof. compute_conj. Qed.

(** A smiley (a surrogate pair), an e with acute accent, an apostrophe and a
    double quote. *)
Example encodeURIComponent_sample :
  encodeURIComponent [0xD83D; 0xDE00; 0xE9; 39; 34]%N
    = Normal (lit "%F0%9F%98%80%C3%A9'%22") /\
  requote (lit "%F0%9F%98%80%C3%A9'%22") = lit "%F0%9F%98%80%C3%A9%27%22" /\
  encodeURIComponent [0xD83D]%N = Throw URIError_malformed /\
  encodeURIComponent [0xDE00; 0xD83D]%N = Throw URIError_malformed.
Proof. compute_conj. Qed.

(** ** The tests of the repository

    [src/__tests__/index.test.ts] run on the embedding; the mocked module
    of the tests is [node_host_with_canvas]. *)

Example test_svg_data_url :
  match fst (generatePlaceholder svg_request node_host_with_canvas
                                 initial_state) with
  | Normal url => starts_with (lit "data:image/svg+xml;charset=utf-8,") url
  | Throw _ => false
  end = true /\
  includes (lit "<svg") (renderSvg svg_request) = true /\
  includes (litq "width='100'") (renderSvg svg_request) = true /\
  includes (litq "height='100'") (renderSvg svg_request) = true /\
  includes (litq "fill='" ++ deterministicColor (lit "test-svg") ++ litq "'")
           (renderSvg svg_request) = true.
Proof. compute_conj. Qed.

Example test_svg_text_and_colors :
  let o := with_backgroundColor (Some (lit "blue"))
             (with_textColor (Some (lit "#FF0000"))
                (with_text (Some (lit "Hello")) svg_request)) in
  includes (lit ">Hello<") (renderSvg o) = true /\
  includes (lit ">100x100<") (renderSvg o) = false /\
  includes (litq "fill='#FF0000'") (renderSvg o) = true /\
  includes (litq "fill='blue'") (renderSvg o) = true /\
  includes (lit ">75x75<")
           (renderSvg (with_format (Some (lit "svg")) (request 75 75 "def")))
    = true.
Proof. compute_conj. Qed.

Example test_png_by_default :
  generatePlaceholder png_request node_host_with_canvas initial_state
  = (Normal (lit "data:image/png;base64,mocked-png-data"),
     {| NodeCanvas := module_Canvas sample_canvas_module;
        NodeImage := Some NodeImageClass;
        calls :=
          [Enter RenderPng;
           ImportModule (lit "canvas");
           CreateCanvas 100 100;
           GetContext (lit "2d");
           SurfaceOp (SetFillStyle (deterministicColor (lit "pngtest-default")));
           SurfaceOp (FillRect 0 0 100 100);
           SurfaceOp (SetFont (lit "30px sans-serif"));
           SurfaceOp (SetFillStyle (lit "#ffffff"));
           SurfaceOp (SetTextAlign (lit "center"));
           SurfaceOp (SetTextBaseline (lit "middle"));
           SurfaceOp (FillText (lit "100x100") 50 50);
           ToDataURL (lit "image/png")] |}).
Proof. vm_compute. reflexivity. Qed.

Example test_unsupported_format :
  fst (generatePlaceholder jpeg_request node_host_with_canvas initial_state)
  = Throw (new_Error
             (lit "Unsupported format: jpeg. Only 'png' and 'svg' are supported.")).
Proof. vm_compute. reflexivity. Qed.

(* ================================================================== *)
(** * Part III: further properties of the code                         *)
(* ================================================================== *)

(** ** The hash as a polynomial in 31 *)

Lemma wrap_signed32_idem_mul_add (a b c : Z) :
  wrap_signed32 (wrap_signed32 a * b + c) = wrap_signed32 (a * b + c).
Proof.
  apply wrap_signed32_congr.
  rewrite <- Zplus_mod_idemp_l, <- Zmult_mod_idemp_l, wrap_signed32_mod.
  rewrite Zmult_mod_idemp_l, Zplus_mod_idemp_l. reflexivity.
Qed.

Lemma wrap_signed32_small (x : Z) :
  - 2 ^ 31 <= x < 2 ^ 31 -> wrap_signed32 x = x.
Proof. intros H. unfold wrap_signed32. rewrite Z.mod_small; lia. Qed.

Lemma accumulate31_poly (s : jsstring) :
  forall h,
    - 2 ^ 31 <= h < 2 ^ 31 ->
    accumulate31 h s
      = wrap_signed32 (h * 31 ^ Z.of_nat (List.length s) + poly31 s).
Proof.
  induction s as [|c s IH]; intros h Hh.
  - cbn [accumulate31 poly31 List.length]. change (31 ^ Z.of_nat 0) with 1.
    rewrite Z.mul_1_r, Z.add_0_r, wrap_signed32_small; [reflexivity|].
    exact Hh.
  - cbn [accumulate31 poly31 List.length].
    rewrite IH by (rewrite <- ToInt32_wrap; apply ToInt32_range).
    rewrite wrap_signed32_idem_mul_add.
    f_equal. rewrite Nat2Z.inj_succ, Z.pow_succ_r by lia. ring.
Qed.

Lemma poly31_app (a b : jsstring) :
  poly31 (a ++ b) = poly31 a * 31 ^ Z.of_nat (List.length b) + poly31 b.
Proof.
  induction a as [|c a IH]; cbn [app poly31].
  - ring.
  - rewrite IH, length_app, Nat2Z.inj_add, Z.pow_add_r by lia. ring.
Qed.

Lemma poly31_nonneg (s : jsstring) : 0 <= poly31 s.
Proof.
  induction s as [|c s IH]; cbn [poly31]; [lia|].
  assert (0 <= 31 ^ Z.of_nat (List.length s)) by (apply Z.pow_nonneg; lia).
  nia.
Qed.

Lemma hashString_poly31 (s : jsstring) :
  hashString s = Z.abs (wrap_signed32 (poly31 s)).
Proof.
  unfold hashString. rewrite fold_hash_step, accumulate31_poly by lia.
  f_equal.
Qed.

(** X1: the hash is the absolute value of the polynomial
    [c0 * 31^(n-1) + ... + c(n-1)] of the code units reduced to a signed
    32-bit integer: the wrap-around of the single steps amounts to one
    reduction at the end. *)
Theorem hashString_polynomial (s : jsstring) :
  hashString s = Z.abs (ToInt32 (poly31 s)).
Proof.
  unfold hashString. rewrite fold_hash_step, accumulate31_poly by lia.
  rewrite ToInt32_wrap. f_equal.
Qed.

Lemma poly31_bound (s : jsstring) :
  valid_units s ->
  (31 - 1) * poly31 s <= 65535 * (31 ^ Z.of_nat (List.length s) - 1).
Proof.
  induction 1 as [|c s Hc Hs IH]; cbn [poly31 List.length]; [lia|].
  rewrite Nat2Z.inj_succ, Z.pow_succ_r by lia.
  assert (0 < 31 ^ Z.of_nat (List.length s)) by (apply Z.pow_pos_nonneg; lia).
  nia.
Qed.

(** X2: a string of at most four code units hashes to its polynomial
    itself: nothing wraps, and the absolute value changes nothing. *)
Theorem hashString_short_exact (s : jsstring) :
  valid_units s ->
  (List.length s <= 4)%nat ->
  hashString s = poly31 s.
Proof.
  intros Hs Hlen.
  rewrite hashString_poly31.
  pose proof (poly31_nonneg s) as H0.
  pose proof (poly31_bound s Hs) as Hb.
  assert (Hp : 31 ^ Z.of_nat (List.length s) <= 31 ^ 4).
  { apply Z.pow_le_mono_r; lia. }
  change (31 ^ 4) with 923521 in Hp.
  rewrite wrap_signed32_small by lia. lia.
Qed.

Lemma hashString_short_exact_Aa :
  valid_units (lit "Aa") /\ (List.length (lit "Aa") <= 4)%nat /\
  hashString (lit "Aa") = poly31 (lit "Aa").
Proof.
  assert (H1 : valid_units (lit "Aa")) by (repeat constructor).
  assert (H2 : (List.length (lit "Aa") <= 4)%nat) by (cbn; lia).
  split; [exact H1|]. split; [exact H2|].
  exact (hashString_short_exact (lit "Aa") H1 H2).
Defined.

(** X3: the hash is not injective, in a systematic way: raising one code
    unit by one and lowering the next by 31 never changes the hash, whatever
    comes before and after (so "Aa" and "BB" collide). *)
Theorem hashString_collisions (p s : jsstring) (c d : code_unit) :
  hashString (p ++ [c; (d + 31)%N] ++ s)
    = hashString (p ++ [(c + 1)%N; d] ++ s).
Proof.
  rewrite !hashString_poly31. do 2 f_equal.
  rewrite !poly31_app. cbn [poly31 List.length app].
  rewrite !N2Z.inj_add. change (Z.of_nat 1) with 1. change (Z.of_nat 0) with 0.
  change (Z.of_N 31) with 31. change (Z.of_N 1) with 1.
  change (31 ^ 1) with 31. change (31 ^ 0) with 1.
  ring.
Qed.

(** ** The colour and the pattern of the tests *)

Lemma hsl_pattern_table :
  forallb
    (fun h => matches_hsl_pattern
                (lit "hsl(" ++ decimal_digits (Z.of_nat h)
                            ++ lit ", 70%, 50%)"))
    (seq 0 360) = true.
Proof. vm_compute. reflexivity. Qed.

Lemma deterministicColor_text (s : jsstring) :
  deterministicColor s
    = lit "hsl(" ++ decimal_digits (hashString s mod 360)
                 ++ lit ", 70%, 50%)".
Proof.
  destruct (hue_range s) as [Hrem Hrange].
  unfold deterministicColor.
  rewrite Hrem, (hue_text _ Hrange).
  change (Number_toString (float_of_Z 70)) with (lit "70").
  change (Number_toString (float_of_Z 50)) with (lit "50").
  reflexivity.
Qed.

(** X4: every colour matches the pattern
    [/^hsl\(\d{1,3}, \d{1,3}%, \d{1,3}%\)$/] that the tests of the
    repository check on one seed. *)
Theorem deterministicColor_matches_pattern (s : jsstring) :
  matches_hsl_pattern (deterministicColor s) = true.
Proof.
  rewrite deterministicColor_text.
  destruct (hue_range s) as [_ Hrange].
  pose proof hsl_pattern_table as T.
  rewrite forallb_forall in T.
  specialize (T (Z.to_nat (hashString s mod 360))).
  rewrite Z2Nat.id in T by lia.
  apply T, in_seq. lia.
Qed.

(** ** The markup around the label *)

Lemma svg_document_around_label (w h : float) (bg label fg : jsstring)
    (fs : float) :
  svg_document w h bg label fg fs
    = svg_before_label w h bg fg fs ++ label ++ svg_after_label.
Proof.
  unfold svg_document, svg_before_label, svg_after_label, svg_centered_text.
  right_nest. reflexivity.
Qed.

(** X5: a text override that is not empty is copied into the markup as it
    is, between the [>] of the text node and [</text>]: what stands before
    it does not depend on it, and nothing in it is escaped. *)
Theorem renderSvg_text_verbatim (o : PlaceholderOptions) (t : jsstring) :
  t <> [] ->
  renderSvg (with_text (Some t) o)
    = svg_before_label (width o) (height o)
        (or_else (backgroundColor o) (deterministicColor (seed o)))
        (or_else (textColor o) (lit "#ffffff"))
        (PrimFloat.mul (Math_min (width o) (height o)) js_0_3)
      ++ t ++ lit "</text>" ++ nl ++ lit "    </svg>".
Proof.
  intros Ht.
  rewrite renderSvg_is_svg_document, svg_document_around_label.
  cbn [with_text width height seed text textColor backgroundColor].
  destruct t as [|c t]; [congruence|]. reflexivity.
Qed.

Lemma renderSvg_text_verbatim_markup :
  lit "</text><a>" <> [] /\
  renderSvg (with_text (Some (lit "</text><a>")) svg_request)
    = svg_before_label 100 100 (deterministicColor (lit "test-svg"))
        (lit "#ffffff") (PrimFloat.mul (Math_min 100 100) js_0_3)
      ++ lit "</text><a>" ++ lit "</text>" ++ nl ++ lit "    </svg>".
Proof.
  assert (H : lit "</text><a>" <> []) by discriminate.
  split; [exact H|].
  exact (renderSvg_text_verbatim svg_request (lit "</text><a>") H).
Defined.

Lemma starts_with_app (p s : jsstring) : starts_with p (p ++ s) = true.
Proof.
  induction p as [|c p IH]; [reflexivity|].
  cbn [app starts_with]. rewrite N.eqb_refl. exact IH.
Qed.

(** X6: the markup begins with the XML declaration, ends with [</svg>] and
    has no white space around it: trimming it again changes nothing. *)
Theorem renderSvg_framed (o : PlaceholderOptions) :
  starts_with (litq "<?xml version='1.0' encoding='UTF-8'?>") (renderSvg o)
    = true /\
  (exists body, renderSvg o = body ++ lit "</svg>") /\
  trim (renderSvg o) = renderSvg o.
Proof.
  rewrite renderSvg_is_svg_document.
  set (bg := or_else (backgroundColor o) _).
  set (label := or_else (text o) _).
  set (fg := or_else (textColor o) _).
  set (fs := PrimFloat.mul _ _).
  split; [|split].
  - unfold svg_document. apply starts_with_app.
  - unfold svg_document. eexists. rewrite !app_assoc. reflexivity.
  - destruct (svg_document_shape (width o) (height o) bg label fg fs)
      as [body E].
    rewrite E.
    rewrite <- (app_nil_r (60%N :: body ++ [62%N])) at 1.
    apply trim_trailing_whitespace.
    + discriminate.
    + reflexivity.
    + change (60%N :: body ++ [62%N]) with ((60%N :: body) ++ [62%N]).
      rewrite rev_app_distr. reflexivity.
    + reflexivity.
Qed.

(** ** The characters of a data URL *)

Lemma valid_units_app (a b : jsstring) :
  valid_units a -> valid_units b -> valid_units (a ++ b).
Proof. intros Ha Hb. apply Forall_app. split; assumption. Qed.

Lemma latin1_valid_units (s : jsstring) : latin1_only s -> valid_units s.
Proof.
  intros H. unfold valid_units. eapply Forall_impl; [|exact H].
  cbv beta. intros c Hc. lia.
Qed.

Lemma or_else_valid_units (field : option jsstring) (d : jsstring) :
  field_valid field -> valid_units d -> valid_units (or_else field d).
Proof. destruct field as [[|c s]|]; simpl; intros Hf Hd; assumption. Qed.

Ltac valid_units_leaf :=
  first [ assumption
        | apply latin1_valid_units, Number_toString_latin1
        | apply latin1_valid_units, latin1_only_lit
        | repeat constructor ].

(** The markup of valid strings is a valid string. *)
Lemma renderSvg_valid_units (o : PlaceholderOptions) :
  field_valid (text o) ->
  field_valid (textColor o) ->
  field_valid (backgroundColor o) ->
  valid_units (renderSvg o).
Proof.
  intros Ht Hc Hb. rewrite renderSvg_is_svg_document.
  assert (Hbg : valid_units
                  (or_else (backgroundColor o) (deterministicColor (seed o)))).
  { apply or_else_valid_units; [exact Hb|].
    apply latin1_valid_units, deterministicColor_latin1. }
  assert (Hlabel : valid_units
                     (or_else (text o)
                              (dimensions_label (width o) (height o)))).
  { apply or_else_valid_units; [exact Ht|].
    apply latin1_valid_units, dimensions_label_latin1. }
  assert (Hfg : valid_units (or_else (textColor o) (lit "#ffffff"))).
  { apply or_else_valid_units; [exact Hc|].
    apply latin1_valid_units, latin1_only_lit. }
  unfold svg_document, svg_root_open, svg_full_rect, svg_centered_text.
  right_nest.
  repeat (apply valid_units_app; [valid_units_leaf|]).
  valid_units_leaf.
Qed.

(** ** Decoding a data URL *)

Lemma hex_value_hex_digit (d : N) :
  (d < 16)%N -> hex_value (hex_digit d) = Some d.
Proof.
  intros Hd. unfold hex_value, hex_digit, is_digit.
  destruct (N.ltb_spec d 10) as [H|H].
  - replace (in_range 48 57 (48 + d)) with true
      by (symmetry; apply in_range_spec; lia).
    f_equal. lia.
  - replace (in_range 48 57 (55 + d)) with false
      by (symmetry; apply not_true_is_false; rewrite in_range_spec; lia).
    replace (in_range 65 70 (55 + d)) with true
      by (symmetry; apply in_range_spec; lia).
    f_equal. lia.
Qed.

Lemma take_escape_percent_octet (o : N) (rest : jsstring) :
  (o < 256)%N -> take_escape (percent_octet o ++ rest) = Some (o, rest).
Proof.
  intros Ho. unfold percent_octet. cbn [app take_escape].
  change (N.eqb 37 37) with true. cbv iota.
  pose proof (N.div_mod o 16 ltac:(discriminate)) as E.
  pose proof (N.mod_lt o 16 ltac:(discriminate)) as L.
  set (q := (o / 16)%N) in *. set (r := (o mod 16)%N) in *. clearbody q r.
  rewrite !hex_value_hex_digit by lia.
  f_equal. f_equal. lia.
Qed.

Lemma take_escapes_percent_octets (l : list N) (rest : jsstring) :
  Forall (fun o => (o < 256)%N) l ->
  take_escapes (List.length l) (flat_map percent_octet l ++ rest)
    = Some (l, rest).
Proof.
  induction 1 as [|o l Ho Hl IH]; [reflexivity|].
  cbn [List.length take_escapes flat_map].
  rewrite <- app_assoc, take_escape_percent_octet by exact Ho.
  rewrite IH. reflexivity.
Qed.

Lemma map_completion_app_unit {A} (a : A) (c : completion (list A)) :
  map_completion (app [a]) c = map_completion (cons a) c.
Proof. destruct c; reflexivity. Qed.

Lemma Decode_percent (fuel : nat) (o : N) (rest : jsstring) :
  Decode (S fuel) (percent_octet o ++ rest)
    = match take_escape (percent_octet o ++ rest) with
      | None => Throw URIError_malformed
      | Some (B, rest1) =>
          if (B <? 0x80)%N then map_completion (cons B) (Decode fuel rest1)
          else
            match sequence_length B with
            | None => Throw URIError_malformed
            | Some n =>
                match take_escapes (Nat.pred n) rest1 with
                | None => Throw URIError_malformed
                | Some (octets, rest2) =>
                    match utf8_code_point B octets with
                    | None => Throw URIError_malformed
                    | Some V =>
                        map_completion (app (utf16_units V))
                                       (Decode fuel rest2)
                    end
                end
            end
      end.
Proof. reflexivity. Qed.

(** Decoding the escapes of one UTF-8 sequence. *)
Lemma Decode_sequence (fuel : nat) (B : N) (octets : list N) (V : N)
    (rest : jsstring) :
  (0x80 <= B < 256)%N ->
  sequence_length B = Some (S (List.length octets)) ->
  Forall (fun o => (o < 256)%N) octets ->
  utf8_code_point B octets = Some V ->
  Decode (S fuel) (flat_map percent_octet (B :: octets) ++ rest)
    = map_completion (app (utf16_units V)) (Decode fuel rest).
Proof.
  intros HB Hn Ho HV.
  cbn [flat_map]. rewrite <- app_assoc.
  rewrite Decode_percent, take_escape_percent_octet by lia.
  replace (B <? 128)%N with false by (symmetry; apply N.ltb_ge; lia).
  rewrite Hn. cbn [Nat.pred].
  rewrite take_escapes_percent_octets by exact Ho.
  rewrite HV. reflexivity.
Qed.

Lemma Decode_ascii_escape (fuel : nat) (c : N) (rest : jsstring) :
  (c < 0x80)%N ->
  Decode (S fuel) (percent_escape c ++ rest)
    = map_completion (app (utf16_units c)) (Decode fuel rest).
Proof.
  intros Hc. unfold percent_escape, utf8_octets.
  replace (c <? 128)%N with true by (symmetry; apply N.ltb_lt; lia).
  cbn [flat_map]. rewrite app_nil_r.
  rewrite Decode_percent, take_escape_percent_octet by lia.
  replace (c <? 128)%N with true by (symmetry; apply N.ltb_lt; lia).
  unfold utf16_units.
  replace (c <? 65536)%N with true by (symmetry; apply N.ltb_lt; lia).
  symmetry. apply map_completion_app_unit.
Qed.

(** A code point that is no surrogate decodes from its escapes. *)
Lemma Decode_percent_escape (fuel : nat) (cp : N) (rest : jsstring) :
  (cp < 0xD800 \/ 0xE000 <= cp < 0x110000)%N ->
  Decode (S fuel) (percent_escape cp ++ rest)
    = map_completion (app (utf16_units cp)) (Decode fuel rest).
Proof.
  intros Hcp.
  destruct (N.ltb_spec cp 0x80) as [H1|H1];
    [apply Decode_ascii_escape; exact H1|].
  unfold percent_escape, utf8_octets.
  replace (cp <? 128)%N with false by (symmetry; apply N.ltb_ge; lia).
  replace (cp / 4096)%N with (cp / 64 / 64)%N
    by (rewrite N.Div0.div_div; reflexivity).
  replace (cp / 262144)%N with (cp / 64 / 64 / 64)%N
    by (rewrite !N.Div0.div_div; reflexivity).
  pose proof (N.div_mod cp 64 ltac:(discriminate)) as E1.
  pose proof (N.mod_lt cp 64 ltac:(discriminate)) as L1.
  pose proof (N.div_mod (cp / 64) 64 ltac:(discriminate)) as E2.
  pose proof (N.mod_lt (cp / 64) 64 ltac:(discriminate)) as L2.
  pose proof (N.div_mod (cp / 64 / 64) 64 ltac:(discriminate)) as E3.
  pose proof (N.mod_lt (cp / 64 / 64) 64 ltac:(discriminate)) as L3.
  set (r3 := ((cp / 64 / 64) mod 64)%N) in *.
  set (q3 := (cp / 64 / 64 / 64)%N) in *.
  set (r2 := ((cp / 64) mod 64)%N) in *.
  set (q2 := (cp / 64 / 64)%N) in *.
  set (r1 := (cp mod 64)%N) in *.
  set (q1 := (cp / 64)%N) in *.
  clearbody r3 q3 r2 q2 r1 q1.
  destruct (N.ltb_spec cp 0x800) as [H2|H2].
  { apply Decode_sequence.
    - lia.
    - unfold sequence_length.
      replace (192 + q1 <? 192)%N with false
        by (symmetry; apply N.ltb_ge; lia).
      replace (192 + q1 <? 224)%N with true
        by (symmetry; apply N.ltb_lt; lia).
      reflexivity.
    - repeat constructor. lia.
    - unfold utf8_code_point, is_continuation.
      replace ((192 + q1 - 192) * 64 + (128 + r1 - 128))%N with cp by lia.
      replace (in_range 128 191 (128 + r1)) with true
        by (symmetry; apply in_range_spec; lia).
      replace (128 <=? cp)%N with true by (symmetry; apply N.leb_le; lia).
      reflexivity. }
  destruct (N.ltb_spec cp 0x10000) as [H3|H3].
  { apply Decode_sequence.
    - lia.
    - unfold sequence_length.
      replace (224 + q2 <? 192)%N with false
        by (symmetry; apply N.ltb_ge; lia).
      replace (224 + q2 <? 224)%N with false
        by (symmetry; apply N.ltb_ge; lia).
      replace (224 + q2 <? 240)%N with true
        by (symmetry; apply N.ltb_lt; lia).
      reflexivity.
    - repeat constructor; lia.
    - unfold utf8_code_point, is_continuation.
      replace ((224 + q2 - 224) * 4096 + (128 + r2 - 128) * 64
               + (128 + r1 - 128))%N with cp by lia.
      replace (in_range 128 191 (128 + r2)) with true
        by (symmetry; apply in_range_spec; lia).
      replace (in_range 128 191 (128 + r1)) with true
        by (symmetry; apply in_range_spec; lia).
      replace (2048 <=? cp)%N with true by (symmetry; apply N.leb_le; lia).
      replace (in_range 55296 57343 cp) with false
        by (symmetry; apply not_true_is_false; rewrite in_range_spec; lia).
      reflexivity. }
  apply Decode_sequence.
  - lia.
  - unfold sequence_length.
    replace (240 + q3 <? 192)%N with false
      by (symmetry; apply N.ltb_ge; lia).
    replace (240 + q3 <? 224)%N with false
      by (symmetry; apply N.ltb_ge; lia).
    replace (240 + q3 <? 240)%N with false
      by (symmetry; apply N.ltb_ge; lia).
    replace (240 + q3 <? 248)%N with true
      by (symmetry; apply N.ltb_lt; lia).
    reflexivity.
  - repeat constructor; lia.
  - unfold utf8_code_point, is_continuation.
    replace ((240 + q3 - 240) * 262144 + (128 + r3 - 128) * 4096
             + (128 + r2 - 128) * 64 + (128 + r1 - 128))%N with cp by lia.
    replace (in_range 128 191 (128 + r3)) with true
      by (symmetry; apply in_range_spec; lia).
    replace (in_range 128 191 (128 + r2)) with true
      by (symmetry; apply in_range_spec; lia).
    replace (in_range 128 191 (128 + r1)) with true
      by (symmetry; apply in_range_spec; lia).
    replace (in_range 65536 1114111 cp) with true
      by (symmetry; apply in_range_spec; lia).
    reflexivity.
Qed.

Lemma utf16_units_unit (c : code_unit) :
  (c < 0x10000)%N -> utf16_units c = [c].
Proof.
  intros H. unfold utf16_units.
  replace (c <? 65536)%N with true by (symmetry; apply N.ltb_lt; lia).
  reflexivity.
Qed.

Lemma surrogate_pair_range (c d : code_unit) :
  is_lead_surrogate c = true -> is_trail_surrogate d = true ->
  (0x10000 <= surrogate_pair c d < 0x110000)%N.
Proof.
  unfold is_lead_surrogate, is_trail_surrogate, surrogate_pair.
  rewrite !in_range_spec. lia.
Qed.

Lemma utf16_units_surrogate_pair (c d : code_unit) :
  is_lead_surrogate c = true -> is_trail_surrogate d = true ->
  utf16_units (surrogate_pair c d) = [c; d].
Proof.
  intros Hc Hd.
  pose proof (surrogate_pair_range c d Hc Hd) as Hr.
  unfold utf16_units.
  replace (surrogate_pair c d <? 65536)%N with false
    by (symmetry; apply N.ltb_ge; lia).
  unfold is_lead_surrogate, is_trail_surrogate in *.
  rewrite in_range_spec in Hc, Hd. unfold surrogate_pair.
  assert (E : ((c - 0xD800) * 0x400 + (d - 0xDC00) + 0x10000 - 0x10000
               = 0x400 * (c - 0xD800) + (d - 0xDC00))%N) by lia.
  rewrite E.
  rewrite <- (N.div_unique _ 0x400 (c - 0xD800) (d - 0xDC00))
    by (try reflexivity; lia).
  rewrite <- (N.mod_unique _ 0x400 (c - 0xD800) (d - 0xDC00))
    by (try reflexivity; lia).
  f_equal; [lia|]. f_equal. lia.
Qed.

Lemma strip_prefix_app (p s : jsstring) : strip_prefix p (p ++ s) = Some s.
Proof.
  induction p as [|c p IH]; [reflexivity|].
  cbn [app strip_prefix]. rewrite N.eqb_refl. exact IH.
Qed.

Lemma percent_escape_length (cp : N) (rest : jsstring) :
  (List.length rest < List.length (percent_escape cp ++ rest))%nat.
Proof.
  rewrite length_app. unfold percent_escape, utf8_octets.
  destruct (cp <? 128)%N; [cbn; lia|].
  destruct (cp <? 2048)%N; [cbn; lia|].
  destruct (cp <? 65536)%N; cbn; lia.
Qed.

(** Decode undoes Encode, whatever set of characters other than the
    percent sign Encode leaves unescaped. *)
Lemma Decode_Encode (u : code_unit -> bool) :
  (forall c, u c = true -> c <> 37%N) ->
  forall s b fuel,
    valid_units s ->
    Encode u s = Normal b ->
    (List.length b <= fuel)%nat ->
    Decode fuel b = Normal s.
Proof.
  intros Hu s.
  induction s as [s IH] using jsstring_length_ind.
  destruct s as [|c rest]; intros b fuel Hs.
  - cbn. intros [= <-] _. destruct fuel; reflexivity.
  - inversion Hs as [|? ? Hc Hrest]; subst.
    rewrite Encode_cons.
    destruct (u c) eqn:Ec.
    { intros H Hlen. apply map_completion_normal in H.
      destruct H as [b' [Hb' ->]].
      destruct fuel as [|fuel]; [cbn in Hlen; lia|].
      cbn [Decode].
      replace (N.eqb c 37) with false
        by (symmetry; apply N.eqb_neq, Hu, Ec).
      rewrite (IH rest ltac:(cbn; lia) b' fuel Hrest Hb')
        by (cbn in Hlen; lia).
      reflexivity. }
    destruct (is_trail_surrogate c) eqn:Et; [discriminate|].
    destruct (is_lead_surrogate c) eqn:El.
    + destruct rest as [|d rest']; [discriminate|].
      destruct (is_trail_surrogate d) eqn:Ed; [|discriminate].
      intros H Hlen. apply map_completion_normal in H.
      destruct H as [b' [Hb' ->]].
      inversion Hrest as [|? ? Hd Hrest']; subst.
      pose proof (percent_escape_length (surrogate_pair c d) b') as Hl.
      destruct fuel as [|fuel]; [lia|].
      pose proof (surrogate_pair_range c d El Ed) as Hr.
      rewrite Decode_percent_escape by lia.
      rewrite (IH rest' ltac:(cbn; lia) b' fuel Hrest' Hb') by lia.
      cbn [map_completion].
      rewrite utf16_units_surrogate_pair by assumption. reflexivity.
    + intros H Hlen. apply map_completion_normal in H.
      destruct H as [b' [Hb' ->]].
      pose proof (percent_escape_length c b') as Hl.
      destruct fuel as [|fuel]; [lia|].
      assert (Hscalar : (c < 0xD800 \/ 0xE000 <= c < 0x110000)%N).
      { unfold is_lead_surrogate, is_trail_surrogate in *.
        apply not_true_iff_false in Et, El.
        rewrite in_range_spec in Et, El. lia. }
      rewrite Decode_percent_escape by exact Hscalar.
      rewrite (IH rest ltac:(cbn; lia) b' fuel Hrest Hb') by lia.
      cbn [map_completion].
      rewrite utf16_units_unit by lia. reflexivity.
Qed.

Lemma uri_unescaped_no_quote_not_percent (c : code_unit) :
  uri_unescaped_no_quote c = true -> c <> 37%N.
Proof.
  intros H ->. discriminate H.
Qed.

(** X7: when a call with the svg format returns, what follows the prefix
    of the data URL decodes, by [decodeURIComponent], to the very markup of
    [renderSvg]: the two escapes added for the quotes do not disturb the
    round trip. *)
Theorem data_url_round_trip
    (o : PlaceholderOptions) (host : Host) (st st' : State) (url : jsstring) :
  format o = Some (lit "svg") ->
  field_valid (text o) ->
  field_valid (textColor o) ->
  field_valid (backgroundColor o) ->
  generatePlaceholder o host st = (Normal url, st') ->
  exists body,
    strip_prefix (lit "data:image/svg+xml;charset=utf-8,") url = Some body /\
    decodeURIComponent body = Normal (renderSvg o).
Proof.
  intros Hf Ht Hc Hb Hgen.
  rewrite (generatePlaceholder_svg o host st Hf) in Hgen.
  destruct (encodeURIComponent (renderSvg o)) as [b|e] eqn:He;
    [|discriminate].
  apply (f_equal fst) in Hgen. cbn [fst] in Hgen.
  assert (E : url = svg_data_url_prefix ++ requote b) by congruence.
  rewrite E.
  exists (requote b). split; [apply strip_prefix_app|].
  unfold decodeURIComponent.
  apply (Decode_Encode uri_unescaped_no_quote
                       uri_unescaped_no_quote_not_percent (renderSvg o)).
  - apply renderSvg_valid_units; assumption.
  - apply Encode_requote, He.
  - lia.
Qed.

Lemma data_url_round_trip_test_svg :
  format svg_request = Some (lit "svg") /\
  generatePlaceholder svg_request node_host_without_canvas initial_state
    = (Normal sample_svg_url, entered RenderSvg initial_state) /\
  exists body,
    strip_prefix (lit "data:image/svg+xml;charset=utf-8,") sample_svg_url
      = Some body /\
    decodeURIComponent body = Normal (renderSvg svg_request).
Proof.
  assert (Hgen : generatePlaceholder svg_request node_host_without_canvas
                                     initial_state
                 = (Normal sample_svg_url, entered RenderSvg initial_state)).
  { vm_compute. reflexivity. }
  split; [reflexivity|]. split; [exact Hgen|].
  exact (data_url_round_trip svg_request node_host_without_canvas
                             initial_state (entered RenderSvg initial_state)
                             sample_svg_url eq_refl I I I Hgen).
Defined.

(** ** The characters of a data URL body *)

Lemma hex_digit_data_url_char (d : N) :
  (d < 16)%N -> data_url_char (hex_digit d) = true.
Proof.
  intros Hd. unfold data_url_char, hex_digit.
  destruct (N.ltb_spec d 10).
  - replace (in_range 48 57 (48 + d)) with true
      by (symmetry; apply in_range_spec; lia).
    rewrite !orb_true_r. reflexivity.
  - replace (in_range 65 90 (55 + d)) with true
      by (symmetry; apply in_range_spec; lia).
    reflexivity.
Qed.

Lemma percent_octet_data_url_chars (o : N) :
  (o < 256)%N -> Forall (fun c => data_url_char c = true) (percent_octet o).
Proof.
  intros Ho.
  pose proof (N.div_mod o 16 ltac:(discriminate)) as E.
  pose proof (N.mod_lt o 16 ltac:(discriminate)) as L.
  unfold percent_octet.
  set (q := (o / 16)%N) in *. set (r := (o mod 16)%N) in *. clearbody q r.
  repeat constructor; apply hex_digit_data_url_char; lia.
Qed.

Lemma utf8_octets_bound (cp : N) :
  (cp < 0x110000)%N -> Forall (fun o => (o < 256)%N) (utf8_octets cp).
Proof.
  intros Hcp. unfold utf8_octets.
  replace (cp / 4096)%N with (cp / 64 / 64)%N
    by (rewrite N.Div0.div_div; reflexivity).
  replace (cp / 262144)%N with (cp / 64 / 64 / 64)%N
    by (rewrite !N.Div0.div_div; reflexivity).
  pose proof (N.div_mod cp 64 ltac:(discriminate)) as E1.
  pose proof (N.mod_lt cp 64 ltac:(discriminate)) as L1.
  pose proof (N.div_mod (cp / 64) 64 ltac:(discriminate)) as E2.
  pose proof (N.mod_lt (cp / 64) 64 ltac:(discriminate)) as L2.
  pose proof (N.div_mod (cp / 64 / 64) 64 ltac:(discriminate)) as E3.
  pose proof (N.mod_lt (cp / 64 / 64) 64 ltac:(discriminate)) as L3.
  set (r3 := ((cp / 64 / 64) mod 64)%N) in *.
  set (q3 := (cp / 64 / 64 / 64)%N) in *.
  set (r2 := ((cp / 64) mod 64)%N) in *.
  set (q2 := (cp / 64 / 64)%N) in *.
  set (r1 := (cp mod 64)%N) in *.
  set (q1 := (cp / 64)%N) in *.
  clearbody r3 q3 r2 q2 r1 q1.
  destruct (N.ltb_spec cp 128); [repeat constructor; lia|].
  destruct (N.ltb_spec cp 2048); [repeat constructor; lia|].
  destruct (N.ltb_spec cp 65536); repeat constructor; lia.
Qed.

Lemma percent_escape_data_url_chars (cp : N) :
  (cp < 0x110000)%N ->
  Forall (fun c => data_url_char c = true) (percent_escape cp).
Proof.
  intros Hcp. unfold percent_escape.
  induction (utf8_octets_bound cp Hcp) as [|o l Ho Hl IH]; cbn [flat_map].
  - constructor.
  - apply Forall_app. split; [apply percent_octet_data_url_chars, Ho | exact IH].
Qed.

Lemma uri_unescaped_no_quote_data_url_char (c : code_unit) :
  uri_unescaped_no_quote c = true -> data_url_char c = true.
Proof.
  unfold uri_unescaped_no_quote, uri_unescaped, data_url_char.
  simpl existsb.
  rewrite andb_true_iff, negb_true_iff, !orb_true_iff, N.eqb_neq, !N.eqb_eq.
  intros [H Hq]. repeat destruct H as [H|H]; auto 20; try discriminate.
Qed.

Lemma Encode_no_quote_data_url_chars (s : jsstring) :
  forall b,
    valid_units s ->
    Encode uri_unescaped_no_quote s = Normal b ->
    Forall (fun c => data_url_char c = true) b.
Proof.
  induction s as [s IH] using jsstring_length_ind.
  destruct s as [|c rest]; intros b Hs.
  - cbn. intros [= <-]. constructor.
  - inversion Hs as [|? ? Hc Hrest]; subst.
    rewrite Encode_cons.
    destruct (uri_unescaped_no_quote c) eqn:Ec.
    { intros H. apply map_completion_normal in H. destruct H as [b' [Hb' ->]].
      constructor; [apply uri_unescaped_no_quote_data_url_char, Ec|].
      apply (IH rest); [cbn; lia | exact Hrest | exact Hb']. }
    destruct (is_trail_surrogate c); [discriminate|].
    destruct (is_lead_surrogate c) eqn:El.
    + destruct rest as [|d rest']; [discriminate|].
      destruct (is_trail_surrogate d) eqn:Ed; [|discriminate].
      intros H. apply map_completion_normal in H. destruct H as [b' [Hb' ->]].
      inversion Hrest as [|? ? Hd Hrest']; subst.
      apply Forall_app. split.
      * apply percent_escape_data_url_chars.
        pose proof (surrogate_pair_range c d El Ed). lia.
      * apply (IH rest'); [cbn; lia | exact Hrest' | exact Hb'].
    + intros H. apply map_completion_normal in H. destruct H as [b' [Hb' ->]].
      apply Forall_app. split.
      * apply percent_escape_data_url_chars. lia.
      * apply (IH rest); [cbn; lia | exact Hrest | exact Hb'].
Qed.

(** X8: the body of a returned svg data URL is made of letters, digits,
    the marks [- _ . ! ~ * ( )] and percent escapes only: no comma, no
    white space, no quote, no angle bracket, no [#] or [&], so that the URL
    can stand in an attribute or be split at its one comma. *)
Theorem data_url_characters
    (o : PlaceholderOptions) (host : Host) (st st' : State) (url : jsstring) :
  format o = Some (lit "svg") ->
  field_valid (text o) ->
  field_valid (textColor o) ->
  field_valid (backgroundColor o) ->
  generatePlaceholder o host st = (Normal url, st') ->
  exists body,
    url = lit "data:image/svg+xml;charset=utf-8," ++ body /\
    Forall (fun c => data_url_char c = true) body /\
    forallb (fun c => negb (data_url_char c)) (lit ", '<>#&") = true /\
    data_url_char 34%N = false /\ data_url_char 10%N = false.
Proof.
  intros Hf Ht Hc Hb Hgen.
  rewrite (generatePlaceholder_svg o host st Hf) in Hgen.
  destruct (encodeURIComponent (renderSvg o)) as [b|e] eqn:He;
    [|discriminate].
  apply (f_equal fst) in Hgen. cbn [fst] in Hgen.
  assert (E : url = svg_data_url_prefix ++ requote b) by congruence.
  exists (requote b). split; [exact E|].
  split; [|repeat apply conj; reflexivity].
  apply (Encode_no_quote_data_url_chars (renderSvg o)).
  - apply renderSvg_valid_units; assumption.
  - apply Encode_requote, He.
Qed.

Lemma data_url_characters_test_svg :
  format svg_request = Some (lit "svg") /\
  generatePlaceholder svg_request node_host_without_canvas initial_state
    = (Normal sample_svg_url, entered RenderSvg initial_state) /\
  exists body,
    sample_svg_url = lit "data:image/svg+xml;charset=utf-8," ++ body /\
    Forall (fun c => data_url_char c = true) body.
Proof.
  assert (Hgen : generatePlaceholder svg_request node_host_without_canvas
                                     initial_state
                 = (Normal sample_svg_url, entered RenderSvg initial_state)).
  { vm_compute. reflexivity. }
  split; [reflexivity|]. split; [exact Hgen|].
  destruct (data_url_characters svg_request node_host_without_canvas
              initial_state (entered RenderSvg initial_state)
              sample_svg_url eq_refl I I I Hgen) as [body [E [H _]]].
  exists body. split; assumption.
Defined.

(** ** What the canvas renderer draws *)

Lemma surface_ops_reset (pre rest : list host_call) (c : host_call) :
  is_creation c = true ->
  surface_ops (pre ++ c :: rest) = surface_ops (c :: rest).
Proof.
  intros Hc. unfold surface_ops.
  rewrite fold_left_app. cbn [fold_left].
  destruct c; try discriminate Hc; reflexivity.
Qed.

Ltac run_renderPng_all :=
  unfold renderPng;
  cbv [bind try_catch window_is_undefined read_NodeCanvas import_module
       record of_completion write_NodeCanvas write_NodeImage
       NodeCanvas_createCanvas document_createElement getContext surface_do
       toDataURL ret throw logged
       NodeCanvas NodeImage calls window_defined import_canvas
       document_canvas negb].

(** X9: where [window] is defined, a call on a canvas that yields a
    context sets the size of the element, fills the background, writes the
    label and returns the data URL of exactly these operations, whatever
    was drawn before; it never touches the optional module nor the cache. *)
Theorem renderPng_in_browser
    (o : PlaceholderOptions) (host : Host) (st : State) :
  window_defined host = true ->
  surface_has_context (document_canvas host) = true ->
  renderPng o host st
  = (Normal (surface_data_url (document_canvas host)
               (SetWidth (width o) :: SetHeight (height o)
                  :: drawing_ops o)),
     logged ([CreateElement (lit "canvas");
              SurfaceOp (SetWidth (width o));
              SurfaceOp (SetHeight (height o));
              GetContext (lit "2d")]
               ++ map SurfaceOp (drawing_ops o)
               ++ [ToDataURL (lit "image/png")]) st).
Proof.
  destruct host as [win imp doc]. destruct st as [nc ni log].
  cbn [window_defined document_canvas]. intros -> Hctx.
  run_renderPng_all. rewrite Hctx. cbv [negb].
  unfold drawing_ops. cbn [map app].
  rewrite <- !app_assoc. cbn [app].
  rewrite surface_ops_reset by reflexivity.
  reflexivity.
Qed.

Lemma renderPng_in_browser_sample :
  window_defined browser_host = true /\
  surface_has_context (document_canvas browser_host) = true /\
  fst (renderPng png_request browser_host initial_state)
    = Normal (lit "data:image/png;base64,mocked-png-data").
Proof.
  split; [reflexivity|]. split; [reflexivity|].
  exact (f_equal fst (renderPng_in_browser png_request browser_host
                                           initial_state eq_refl eq_refl)).
Defined.



(** X11: when the canvas yields no 2D context the call rejects with
    "Could not get 2D rendering context from canvas." right after asking
    for it: nothing is drawn and no data URL is requested.  In a browser: *)
Theorem renderPng_without_context_in_browser
    (o : PlaceholderOptions) (host : Host) (st : State) :
  window_defined host = true ->
  surface_has_context (document_canvas host) = false ->
  renderPng o host st
  = (Throw (new_Error
              (lit "Could not get 2D rendering context from canvas.")),
     logged [CreateElement (lit "canvas");
             SurfaceOp (SetWidth (width o));
             SurfaceOp (SetHeight (height o));
             GetContext (lit "2d")] st).
Proof.
  destruct host as [win imp doc]. destruct st as [nc ni log].
  cbn [window_defined document_canvas]. intros -> Hctx.
  run_renderPng_all. rewrite Hctx. cbv [negb].
  rewrite <- !app_assoc. reflexivity.
Qed.

Lemma renderPng_without_context_in_browser_sample :
  window_defined blind_browser_host = true /\
  surface_has_context (document_canvas blind_browser_host) = false /\
  fst (renderPng png_request blind_browser_host initial_state)
    = Throw (new_Error
               (lit "Could not get 2D rendering context from canvas.")).
Proof.
  split; [reflexivity|]. split; [reflexivity|].
  exact (f_equal fst (renderPng_without_context_in_browser
                        png_request blind_browser_host initial_state
                        eq_refl eq_refl)).
Defined.

(** X12: the same without [window], on a canvas of the cached module. *)
Theorem renderPng_without_context_on_module_canvas
    (o : PlaceholderOptions) (host : Host) (st : State)
    (ns : CanvasNamespace) (surface : Surface) :
  window_defined host = false ->
  NodeCanvas st = Some ns ->
  createCanvas ns (width o) (height o) = Normal surface ->
  surface_has_context surface = false ->
  renderPng o host st
  = (Throw (new_Error
              (lit "Could not get 2D rendering context from canvas.")),
     logged [CreateCanvas (width o) (height o); GetContext (lit "2d")] st).
Proof.
  destruct host as [win imp doc]. destruct st as [nc ni log].
  cbn [window_defined NodeCanvas]. intros -> -> Hcreate Hctx.
  run_renderPng_all. rewrite Hcreate, Hctx. cbv [negb].
  rewrite <- !app_assoc. reflexivity.
Qed.

Lemma renderPng_without_context_on_module_canvas_sample :
  window_defined node_host_with_canvas = false /\
  NodeCanvas blind_cached_state = Some blind_namespace /\
  fst (renderPng png_request node_host_with_canvas blind_cached_state)
    = Throw (new_Error
               (lit "Could not get 2D rendering context from canvas.")).
Proof.
  split; [reflexivity|]. split; [reflexivity|].
  exact (f_equal fst
           (renderPng_without_context_on_module_canvas
              png_request node_host_with_canvas blind_cached_state
              blind_namespace blind_surface
              eq_refl eq_refl eq_refl eq_refl)).
Defined.

(** X13: a module that loads but has no [Canvas] export leaves the cache
    empty: the call rejects with a TypeError on [NodeCanvas.createCanvas]
    before any canvas exists, only the load was attempted, and the next
    call will attempt it again. *)
Theorem renderPng_module_without_Canvas
    (o : PlaceholderOptions) (host : Host) (st : State) (m : CanvasModule) :
  window_defined host = false ->
  NodeCanvas st = None ->
  import_canvas host (load_attempts (calls st)) = Normal m ->
  module_Canvas m = None ->
  (exists e, fst (renderPng o host st) = Throw e /\
             exn_class e = JsTypeError) /\
  NodeCanvas (snd (renderPng o host st)) = None /\
  calls (snd (renderPng o host st))
    = calls st ++ [ImportModule (lit "canvas")].
Proof.
  destruct host as [win imp doc]. destruct st as [nc ni log].
  cbn [window_defined NodeCanvas import_canvas calls].
  intros -> -> Himport Hcanvas.
  run_renderPng_all. rewrite Himport. cbv iota beta. rewrite Hcanvas.
  cbn [fst snd NodeCanvas calls].
  split; [|split; reflexivity].
  eexists. split; reflexivity.
Qed.

Lemma renderPng_module_without_Canvas_sample :
  window_defined node_host_with_empty_module = false /\
  module_Canvas empty_module = None /\
  NodeCanvas (snd (renderPng png_request node_host_with_empty_module
                             initial_state)) = None.
Proof.
  split; [reflexivity|]. split; [reflexivity|].
  exact (proj1 (proj2 (renderPng_module_without_Canvas
                         png_request node_host_with_empty_module
                         initial_state empty_module
                         eq_refl eq_refl eq_refl eq_refl))).
Defined.

(** X14: an error thrown by [createCanvas] itself, once it is called,
    reaches the caller as it is; the cached module is kept and nothing is
    drawn.  (The [createCanvas] of a [CanvasNamespace] is a function; an
    export that has none is not what this is about.) *)
Theorem renderPng_createCanvas_error
    (o : PlaceholderOptions) (host : Host) (st : State)
    (ns : CanvasNamespace) (e : js_exception) :
  window_defined host = false ->
  NodeCanvas st = Some ns ->
  createCanvas ns (width o) (height o) = Throw e ->
  renderPng o host st
  = (Throw e, logged [CreateCanvas (width o) (height o)] st).
Proof.
  destruct host as [win imp doc]. destruct st as [nc ni log].
  cbn [window_defined NodeCanvas]. intros -> -> Hcreate.
  run_renderPng_all. rewrite Hcreate. reflexivity.
Qed.

Lemma renderPng_createCanvas_error_sample :
  window_defined node_host_with_canvas = false /\
  NodeCanvas throwing_cached_state = Some throwing_namespace /\
  createCanvas throwing_namespace (width png_request) (height png_request)
    = Throw allocation_failed /\
  renderPng png_request node_host_with_canvas throwing_cached_state
    = (Throw allocation_failed,
       logged [CreateCanvas 100 100] throwing_cached_state).
Proof.
  split; [reflexivity|]. split; [reflexivity|]. split; [reflexivity|].
  exact (renderPng_createCanvas_error
           png_request node_host_with_canvas throwing_cached_state
           throwing_namespace allocation_failed
           eq_refl eq_refl eq_refl).
Defined.

(** *** Loads that fail *)

(** A failed load changes nothing but the log. *)
Lemma renderPng_failed_load_state
    (o : PlaceholderOptions) (host : Host) (st : State) (e : js_exception) :
  window_defined host = false ->
  NodeCanvas st = None ->
  import_canvas host (load_attempts (calls st)) = Throw e ->
  snd (renderPng o host st) = logged [ImportModule (lit "canvas")] st.
Proof.
  destruct host as [win imp doc]. destruct st as [nc ni log].
  cbn [window_defined NodeCanvas import_canvas calls].
  intros -> -> Himport.
  run_renderPng_all. rewrite Himport. cbv iota beta.
  destruct (code_is e (lit "MODULE_NOT_FOUND")); reflexivity.
Qed.

(** X15: where the optional module cannot be loaded, nothing is
    remembered of a failure: of any number of calls made one after the
    other each one attempts the load once more, and the cache stays
    empty. *)
Theorem failed_loads_are_retried
    (host : Host) (requests : list PlaceholderOptions) (st : State) :
  window_defined host = false ->
  never_loads host ->
  NodeCanvas st = None ->
  NodeCanvas (run_renderPng host requests st) = None /\
  load_attempts (calls (run_renderPng host requests st))
    = (load_attempts (calls st) + List.length requests)%nat.
Proof.
  intros Hwin Hnever. revert st.
  induction requests as [|o requests IH]; intros st Hcache.
  - cbn. split; [exact Hcache | lia].
  - cbn [run_renderPng List.length].
    destruct (Hnever (load_attempts (calls st))) as [e He].
    rewrite (renderPng_failed_load_state o host st e Hwin Hcache He).
    destruct (IH (logged [ImportModule (lit "canvas")] st) Hcache)
      as [Hc Hl].
    split; [exact Hc|].
    rewrite Hl. cbn [logged calls]. rewrite load_attempts_app. cbn. lia.
Qed.

Lemma failed_loads_are_retried_three_calls :
  window_defined node_host_without_canvas = false /\
  never_loads node_host_without_canvas /\
  load_attempts
    (calls (run_renderPng node_host_without_canvas
                          [png_request; png_request; png_request]
                          initial_state)) = 3%nat.
Proof.
  assert (H : never_loads node_host_without_canvas).
  { intros n. exists module_not_found. reflexivity. }
  split; [reflexivity|]. split; [exact H|].
  exact (proj2 (failed_loads_are_retried
                  node_host_without_canvas
                  [png_request; png_request; png_request] initial_state
                  eq_refl H eq_refl)).
Defined.

(** ** The vector path and the host *)

(** X16: a call with the svg format does not look at its environment:
    whether it returns or rejects, the outcome is the same on every host
    and in every state, no call is made to the host and the cache of the
    optional module is left alone. *)
Theorem generatePlaceholder_svg_ignores_host
    (o : PlaceholderOptions) (host host' : Host) (st st' : State) :
  format o = Some (lit "svg") ->
  fst (generatePlaceholder o host st) = fst (generatePlaceholder o host' st')
  /\ snd (generatePlaceholder o host st) = entered RenderSvg st.
Proof.
  intros Hf. rewrite !(generatePlaceholder_svg _ _ _ Hf).
  destruct (encodeURIComponent (renderSvg o)); split; reflexivity.
Qed.

Lemma generatePlaceholder_svg_ignores_host_sample :
  format svg_request = Some (lit "svg") /\
  fst (generatePlaceholder svg_request node_host_without_canvas initial_state)
    = fst (generatePlaceholder svg_request browser_host cached_state).
Proof.
  split; [reflexivity|].
  exact (proj1 (generatePlaceholder_svg_ignores_host
                  svg_request node_host_without_canvas browser_host
                  initial_state cached_state eq_refl)).
Defined.
